(** * Top-query aggregation of [app.py]: model and properties

    The development embeds [get_top_query] of [src/app.py] (lines 171-201)
    and the library operations it calls: the two filters, the two
    [sort_values] calls, the two [groupby(...).transform(...)] calls, the
    column projection and the final [reset_index].

    Conventions.
    - A Python [str] is a [string]; each character is read as a code point
      below 256, so [String.compare] is Python's ordering of strings.
    - [clicks] and [impressions] are integers ([Z]); [ctr] is a float that
      the routine only carries along.
    - A DataFrame is the list of its rows, in frame order; the row index is
      dropped by the final [reset_index(drop=True)] and is not modelled.
    - [fetch_query_page] is a network call: its result is the argument
      [df] of [get_top_query]. *)

From Stdlib Require Import List String Ascii ZArith Bool Lia.
From Stdlib Require Import Permutation Sorted.
From Stdlib Require Import Floats.PrimFloat.
Import ListNotations.

Local Open Scope string_scope.
Local Open Scope Z_scope.
Local Open Scope list_scope.

(** ** Data model *)

(** A row of the frame returned by [fetch_query_page]
    (dimensions [query], [page] and the metrics the routine reads). *)
Module Rec.
Record t : Type := mk
  { query : string;
    page : string;
    clicks : Z;
    impressions : Z;
    ctr : float }.
End Rec.

(** A row of the returned frame; the fields are in the order of the column
    list of line 197. *)
Module Ranked.
Record t : Type := mk
  { top_query : string;
    query : string;
    clicks : Z;
    impressions : Z;
    ctr : float;
    q_pages_top_query : Z;
    page : string }.
End Ranked.

(** The returned frame: its column labels and its rows. *)
Record Table : Type := mkTable
  { columns : list string;
    rows : list Ranked.t }.

(** The value of [metrics]: the radio of [show_metrics_selector] offers the
    two column names ["clicks"] and ["impressions"]. *)
Inductive Metric : Type := MClicks | MImpressions.

(** [df[metrics]] on an input row and on an output row. *)
Definition rec_metric (m : Metric) (r : Rec.t) : Z :=
  match m with MClicks => Rec.clicks r | MImpressions => Rec.impressions r end.

Definition ranked_metric (m : Metric) (o : Ranked.t) : Z :=
  match m with MClicks => Ranked.clicks o | MImpressions => Ranked.impressions o end.

(** Python values that can reach the parameter [zero_clicks]. *)
Inductive pyval : Type :=
| PyNone
| PyBool (b : bool)
| PyInt (z : Z)
| PyStr (s : string).

(** [v == s] for a string literal [s]: only an equal [str] compares equal. *)
Definition py_eq_str (v : pyval) (s : string) : bool :=
  match v with
  | PyStr s' => String.eqb s' s
  | _ => false
  end.

(** What a call of [get_top_query] does: it returns a frame, it raises
    [Exception(msg)], or its brand pattern leaves the fragment of regular
    expressions modelled below. In the last case the model says nothing of
    the call: the code may raise the error of the pattern engine there, or
    match by rules the fragment does not have. *)
Inductive outcome : Type :=
| Returned (t : Table)
| Raised (msg : string)
| Unmodelled.

(** ** Strings: [split], [strip], [join] *)

Definition comma : ascii := ","%char.
Definition bar : ascii := "|"%char.

(** [s.split(c)] for a one-character separator: never empty, and an empty
    field for every separator at an end or next to another one. *)
Fixpoint split_on (c : ascii) (s : string) : list string :=
  match s with
  | EmptyString => [EmptyString]
  | String a s' =>
      if Ascii.eqb a c then EmptyString :: split_on c s'
      else match split_on c s' with
           | [] => [String a EmptyString]
           | w :: ws => String a w :: ws
           end
  end.

(** [str.isspace] on the code points below 256. *)
Definition is_space (a : ascii) : bool :=
  let n := N_of_ascii a in
  ((9 <=? n) && (n <=? 13) || (28 <=? n) && (n <=? 32)
   || (n =? 133) || (n =? 160))%N.

Fixpoint lstrip (s : string) : string :=
  match s with
  | EmptyString => EmptyString
  | String a s' => if is_space a then lstrip s' else s
  end.

Fixpoint rstrip (s : string) : string :=
  match s with
  | EmptyString => EmptyString
  | String a s' =>
      match rstrip s' with
      | EmptyString => if is_space a then EmptyString else String a EmptyString
      | t => String a t
      end
  end.

(** [str.strip] *)
Definition strip (s : string) : string := rstrip (lstrip s).

(** [sep.join(l)] *)
Fixpoint join (sep : string) (l : list string) : string :=
  match l with
  | [] => EmptyString
  | [x] => x
  | x :: l' => (x ++ sep ++ join sep l')%string
  end.

(** ** The fragment of Python's [re] reached by brand terms

    [Series.str.contains(pat)] searches [pat] as a regular expression in
    every value. The fragment covers patterns made of ordinary characters,
    the dot and the top-level bar; any other special character puts the
    pattern outside the model. *)

Inductive re_atom : Type :=
| Lit (a : ascii)
| Dot.

(** The special characters of [re]: [. ^ $ * + ? { } [ ] \ | ( )]. *)
Definition is_meta (a : ascii) : bool :=
  existsb (Ascii.eqb a)
    ["."; "^"; "$"; "*"; "+"; "?"; "{"; "}"; "["; "]"; "\"; "|"; "("; ")"]%char.

Fixpoint parse_branch (s : string) : option (list re_atom) :=
  match s with
  | EmptyString => Some []
  | String a s' =>
      if Ascii.eqb a "."%char then option_map (cons Dot) (parse_branch s')
      else if is_meta a then None
      else option_map (cons (Lit a)) (parse_branch s')
  end.

Fixpoint parse_branches (l : list string) : option (list (list re_atom)) :=
  match l with
  | [] => Some []
  | s :: l' =>
      match parse_branch s, parse_branches l' with
      | Some b, Some bs => Some (b :: bs)
      | _, _ => None
      end
  end.

(** [re.compile(pat)] on the fragment: the branches of the alternation. *)
Definition re_compile (pat : string) : option (list (list re_atom)) :=
  parse_branches (split_on bar pat).

(** The dot matches every character but the newline. *)
Definition atom_matches (x : re_atom) (a : ascii) : bool :=
  match x with
  | Lit b => Ascii.eqb a b
  | Dot => negb (Ascii.eqb a "010"%char)
  end.

(** The branch matches a prefix of [s]. *)
Fixpoint match_here (b : list re_atom) (s : string) : bool :=
  match b with
  | [] => true
  | x :: b' =>
      match s with
      | EmptyString => false
      | String a s' => atom_matches x a && match_here b' s'
      end
  end.

(** Some branch matches at the start of [s]. *)
Definition match_any (bs : list (list re_atom)) (s : string) : bool :=
  existsb (fun b => match_here b s) bs.

(** [re.search]: some branch matches at some position of [s]. *)
Fixpoint re_search (bs : list (list re_atom)) (s : string) : bool :=
  match_any bs s ||
  match s with
  | EmptyString => false
  | String _ s' => re_search bs s'
  end.

(** ** DataFrame operations *)

(** [df.sort_values(by=[k1, k2], ascending=[True, False])] compares rows by
    the string column [k1] ascending, then by the numeric column [k2]
    descending. [sort_leb k1 k2 a b] says that [a] may stand before [b]. *)
Definition sort_leb {A : Type} (k1 : A -> string) (k2 : A -> Z) (a b : A) : bool :=
  match String.compare (k1 a) (k1 b) with
  | Lt => true
  | Eq => k2 b <=? k2 a
  | Gt => false
  end.

(** A sort on several columns is stable in pandas (it goes through a
    lexicographic indexer). A stable sort has one result, whatever the
    algorithm (see [stable_sorting_unique]); insertion from the right is the
    simplest one. *)
Fixpoint insert_stable {A : Type} (leb : A -> A -> bool) (x : A) (l : list A) : list A :=
  match l with
  | [] => [x]
  | y :: l' => if leb x y then x :: l else y :: insert_stable leb x l'
  end.

Fixpoint stable_sort {A : Type} (leb : A -> A -> bool) (l : list A) : list A :=
  match l with
  | [] => []
  | x :: l' => insert_stable leb x (stable_sort leb l')
  end.

Definition sort_values {A : Type} (k1 : A -> string) (k2 : A -> Z) (df : list A) : list A :=
  stable_sort (sort_leb k1 k2) df.

(** The rows of the group of key [k] in [df.groupby(key)], in frame order. *)
Definition group_of {A : Type} (key : A -> string) (df : list A) (k : string) : list A :=
  filter (fun r => String.eqb (key r) k) df.

(** [df.groupby(key)[col].transform('first')]: for every row, the value of
    [col] in the first row of its group. The group of a row of [df] holds
    that row, so the first branch is never taken on a frame's own rows. *)
Definition transform_first {A : Type} (key col : A -> string) (df : list A) : list string :=
  map (fun r => match group_of key df (key r) with
                | [] => col r
                | r0 :: _ => col r0
                end) df.

(** [df.groupby(key)[col].transform('count')]: for every row, the number of
    values of its group. *)
Definition transform_count {A : Type} (key : A -> string) (df : list A) : list Z :=
  map (fun r => Z.of_nat (List.length (group_of key df (key r)))) df.

(** ** [get_top_query], stage by stage *)

(** Line 183: the pattern built from the text of the brand field. *)
Definition brand_terms (brand_term : string) : list string :=
  map strip (split_on comma brand_term).

Definition brand_pattern (brand_term : string) : string :=
  join "|" (brand_terms brand_term).

(** Lines 182-184. [None]: the pattern is outside the modelled fragment. *)
Definition brand_filter (brand_term : string) (df : list Rec.t) : option (list Rec.t) :=
  match brand_term with
  | EmptyString => Some df
  | _ =>
      match re_compile (brand_pattern brand_term) with
      | None => None
      | Some bs => Some (filter (fun r => negb (re_search bs (Rec.query r))) df)
      end
  end.

(** Lines 186-188. *)
Definition zero_clicks_filter (zero_clicks : pyval) (df : list Rec.t) : list Rec.t :=
  if py_eq_str zero_clicks "Si"
  then filter (fun r => 0 <? Rec.clicks r) df
  else df.

(** Lines 182-188: the frame that reaches the aggregation. *)
Definition filtered_input (brand_term : string) (zero_clicks : pyval) (df : list Rec.t)
  : option (list Rec.t) :=
  option_map (zero_clicks_filter zero_clicks) (brand_filter brand_term df).

(** Line 197: the column list of the projection. *)
Definition output_columns : list string :=
  ["top_query"; "query"; "clicks"; "impressions"; "ctr"; "q_pages_top_query"; "page"].

(** Lines 193-197 on one row: the row with its two new columns, projected. *)
Definition project (r : Rec.t) (top : string) (count : Z) : Ranked.t :=
  Ranked.mk top (Rec.query r) (Rec.clicks r) (Rec.impressions r) (Rec.ctr r)
            count (Rec.page r).

Fixpoint add_columns (df : list Rec.t) (tops : list string) (counts : list Z)
  : list Ranked.t :=
  match df, tops, counts with
  | r :: df', t :: tops', c :: counts' => project r t c :: add_columns df' tops' counts'
  | _, _, _ => []
  end.

(** Lines 190-201. *)
Definition aggregate (metrics : Metric) (df : list Rec.t) : Table :=
  let df := sort_values Rec.page (rec_metric metrics) df in
  let top_query := transform_first Rec.page Rec.query df in
  let q_pages_top_query := transform_count Rec.page df in
  let df := add_columns df top_query q_pages_top_query in
  let df := sort_values Ranked.top_query (ranked_metric metrics) df in
  mkTable output_columns df.

(** Lines 171-201; [df] is the frame returned by [fetch_query_page]. *)
Definition get_top_query (df : list Rec.t) (metrics : Metric)
           (brand_term : string) (zero_clicks : pyval) : outcome :=
  match df with
  | [] => Raised "No hay Dataframe"
  | _ =>
      match filtered_input brand_term zero_clicks df with
      | None => Unmodelled
      | Some df' => Returned (aggregate metrics df')
      end
  end.

(** ** Runs of the routine

    pandas promises of the sort on several columns that it orders the rows by
    the keys and keeps rows of equal keys in their order; which algorithm does
    it is left open. A run of the routine is any execution in which each of
    the two [sort_values] calls returns some list with these properties. *)

(** [x] and [y] have the same sort keys. *)
Definition same_key {A : Type} (leb : A -> A -> bool) (x y : A) : bool :=
  leb x y && leb y x.

(** [l'] is a stable sorting of [l]: the same rows, in order, and the rows of
    every key in the order they have in [l]. *)
Definition stable_sorting {A : Type} (leb : A -> A -> bool) (l l' : list A) : Prop :=
  Permutation l l' /\
  StronglySorted (fun a b => leb a b = true) l' /\
  forall x, filter (same_key leb x) l' = filter (same_key leb x) l.

Inductive run (df : list Rec.t) (metrics : Metric) (brand_term : string)
          (zero_clicks : pyval) : outcome -> Prop :=
| run_raise :
    df = [] ->
    run df metrics brand_term zero_clicks (Raised "No hay Dataframe")
| run_unmodelled :
    df <> [] ->
    filtered_input brand_term zero_clicks df = None ->
    run df metrics brand_term zero_clicks Unmodelled
| run_return (df' s : list Rec.t) (out : list Ranked.t) :
    df <> [] ->
    filtered_input brand_term zero_clicks df = Some df' ->
    stable_sorting (sort_leb Rec.page (rec_metric metrics)) df' s ->
    stable_sorting (sort_leb Ranked.top_query (ranked_metric metrics))
                   (add_columns s (transform_first Rec.page Rec.query s)
                                (transform_count Rec.page s))
                   out ->
    run df metrics brand_term zero_clicks (Returned (mkTable output_columns out)).

(** ** Vocabulary of the statements *)

(** [a] is before [b] in Python's order on strings. *)
Definition str_lt (a b : string) : Prop := String.compare a b = Lt.

(** The order of the returned frame: [top_query] ascending, then the metric
    descending. *)
Definition output_le (metrics : Metric) (a b : Ranked.t) : Prop :=
  str_lt (Ranked.top_query a) (Ranked.top_query b) \/
  (Ranked.top_query a = Ranked.top_query b /\
   ranked_metric metrics b <= ranked_metric metrics a).

(** The output row [o] carries the columns of the input row [r]. *)
Definition produced_from (o : Ranked.t) (r : Rec.t) : Prop :=
  Ranked.query o = Rec.query r /\
  Ranked.page o = Rec.page r /\
  Ranked.clicks o = Rec.clicks r /\
  Ranked.impressions o = Rec.impressions r /\
  Ranked.ctr o = Rec.ctr r.

(** [t] occurs in [s] as a substring. *)
Definition contains_substring (t s : string) : Prop :=
  exists pre post : string, s = (pre ++ t ++ post)%string.

(** No character of [s] is special in a regular expression. *)
Definition plain (s : string) : Prop :=
  Forall (fun a => is_meta a = false) (list_ascii_of_string s).

(** The branch that matches the characters of [t] and nothing else. *)
Definition literal (t : string) : list re_atom := map Lit (list_ascii_of_string t).

(** ** Sample frames *)

Definition sample_row (q p : string) (c i : Z) : Rec.t := Rec.mk q p c i 0.5%float.

(** Three queries of two pages; on ["/x"] the second query has most clicks
    and the first most impressions. *)
Definition sample_frame : list Rec.t :=
  [sample_row "a" "/x" 5 90; sample_row "b" "/x" 10 40; sample_row "c" "/y" 1 7].

(** The same frame with a page that has no click. *)
Definition sample_frame_zero : list Rec.t :=
  sample_frame ++ [sample_row "d" "/z" 0 3].

(** ** Reading a report back *)

(** The columns of an output row that the record source delivers: what a
    report gives when its rows are taken as records again. *)
Definition record_of (o : Ranked.t) : Rec.t :=
  Rec.mk (Ranked.query o) (Ranked.page o) (Ranked.clicks o)
         (Ranked.impressions o) (Ranked.ctr o).

(** ** Date ranges ([calc_date_range], lines 214-233) *)

(** A [datetime.date] is its proleptic Gregorian ordinal ([date.toordinal]):
    day 1 is 0001-01-01 and the last day, 9999-12-31, is 3652059. *)
Definition date_max : Z := 3652059.

(** [d - datetime.timedelta(days=n)]; [None] is Python's [OverflowError]
    when the day falls outside the calendar. *)
Definition date_minus_days (d n : Z) : option Z :=
  let o := d - n in
  if (1 <=? o) && (o <=? date_max) then Some o else None.

(** The two accented letters of the labels, as code points. *)
Definition U_acute : ascii := "218"%char.
Definition i_acute : ascii := "237"%char.

Definition ultimos (rest : string) : string :=
  String U_acute ("ltimos " ++ rest)%string.
Definition dias : string := String "d"%char (String i_acute "as").

Definition last_7_days : string := ultimos ("7 " ++ dias)%string.
Definition last_30_days : string := ultimos ("30 " ++ dias)%string.
Definition last_3_months : string := ultimos "3 meses".
Definition last_6_months : string := ultimos "6 meses".
Definition last_12_months : string := ultimos "12 meses".
Definition choose_dates : string := "Elegir fechas".

(** Lines 13-20. *)
Definition DATE_RANGE_OPTIONS : list string :=
  [last_7_days; last_30_days; last_3_months; last_6_months; last_12_months;
   choose_dates].

(** Lines 219-225. *)
Definition range_map : list (string * Z) :=
  [(last_7_days, 7); (last_30_days, 30); (last_3_months, 90);
   (last_6_months, 180); (last_12_months, 365)].

(** [d.get(k, default)] on a dict written as its list of items. *)
Fixpoint dict_get_default {V : Type} (k : string) (d : list (string * V)) (default : V) : V :=
  match d with
  | [] => default
  | (k', v) :: d' => if String.eqb k k' then v else dict_get_default k d' default
  end.

(** Lines 227-233. [today] is the value of [datetime.date.today()]; a custom
    date is [None] or a date, and a date is always true in a condition. *)
Definition calc_date_range (today : Z) (selection : string)
           (custom_start custom_end : option Z) : option (Z * Z) :=
  if String.eqb selection choose_dates then
    match custom_start, custom_end with
    | Some s, Some e => Some (s, e)
    | _, _ => option_map (fun s => (s, today)) (date_minus_days today 7)
    end
  else
    option_map (fun s => (s, today))
               (date_minus_days today (dict_get_default selection range_map 0)).

(** ** Property lists and selectors *)

(** A JSON object with string values, as its list of members. *)
Definition json_object : Type := list (string * string).

(** [d[k]]; [None] is Python's [KeyError]. *)
Fixpoint dict_get (k : string) (d : json_object) : option string :=
  match d with
  | [] => None
  | (k', v) :: d' => if String.eqb k k' then Some v else dict_get k d'
  end.

(** [[f(x) for x in l]] where [f] may raise. *)
Fixpoint map_raise {A B : Type} (f : A -> option B) (l : list A) : option (list B) :=
  match l with
  | [] => Some []
  | x :: l' =>
      match f x with
      | None => None
      | Some y => option_map (cons y) (map_raise f l')
      end
  end.

Definition no_properties : string := "No se encontraron propiedades".

(** Lines 142-144. [site_entry] is the member ['siteEntry'] of the response
    of [sites().list()], [None] when the response has none; the result is
    [None] when an entry has no ['siteUrl'] ([KeyError]). *)
Definition list_gsc_properties (site_entry : option (list json_object))
  : option (list string) :=
  let entries := match site_entry with Some l => l | None => [] end in
  match map_raise (dict_get "siteUrl") entries with
  | None => None
  | Some [] => Some [no_properties]
  | Some urls => Some urls
  end.

(** [l.index(x)]; [None] is Python's [ValueError]. *)
Fixpoint list_index (x : string) (l : list string) : option nat :=
  match l with
  | [] => None
  | y :: l' => if String.eqb y x then Some 0%nat else option_map S (list_index x l')
  end.

(** [x in l] *)
Definition list_mem (x : string) (l : list string) : bool :=
  existsb (fun y => String.eqb y x) l.

(** The [index] argument of [st.selectbox] in [show_property_selector]
    (lines 334-335) and in [show_device_selector] (lines 280-281):
    [options.index(selected) if selected in options else 0]. The value in the
    session state is [None] or a string. *)
Definition selector_index (selected : option string) (options : list string) : option nat :=
  match selected with
  | Some x => if list_mem x options then list_index x options else Some 0%nat
  | None => Some 0%nat
  end.

(** Lines 22. *)
Definition DEVICE_OPTIONS : list string := ["Todos"; "desktop"; "mobile"; "tablet"].

(** ** The record source ([fetch_query_page], lines 147-169) *)

(** What the body of the [try] does before the emptiness test: the query to
    the API returns a frame or raises. *)
Inductive api_result : Type :=
| ApiFrame (df : list Rec.t)
| ApiError (e : string).

(** Lines 154-169: an empty frame raises inside the [try]; every exception
    is reported and replaced by an empty frame. *)
Definition fetch_query_page (r : api_result) : list Rec.t :=
  match r with
  | ApiFrame [] => []
  | ApiFrame df => df
  | ApiError _ => []
  end.

(** ** The domain in a file name ([extract_full_domain], lines 362-369)

    The pattern is
    [(?:https?://(?:www\.)?|sc-domain:)([\w\-\.]+)\.([\w\-]+)]. Python's
    matcher tries the alternatives from left to right and the longer
    repetition first, and goes back to the next choice when what follows
    fails; the functions below make the same choices in the same order, each
    taking what follows as its continuation. *)

(** [\w] on the code points below 256: the characters for which
    [str.isalnum] holds, and the underscore. *)
Definition is_word (a : ascii) : bool :=
  let n := N_of_ascii a in
  ((48 <=? n) && (n <=? 57) || (65 <=? n) && (n <=? 90)
   || (97 <=? n) && (n <=? 122) || (n =? 95)
   || (n =? 170) || (n =? 178) || (n =? 179) || (n =? 181)
   || (n =? 185) || (n =? 186) || (188 <=? n) && (n <=? 190)
   || (192 <=? n) && (n <=? 214) || (216 <=? n) && (n <=? 246)
   || (248 <=? n) && (n <=? 255))%N.

(** [[\w\-\.]] and [[\w\-]] *)
Definition host_char (a : ascii) : bool :=
  is_word a || Ascii.eqb a "-"%char || Ascii.eqb a "."%char.

Definition label_char (a : ascii) : bool :=
  is_word a || Ascii.eqb a "-"%char.

(** [p] at the start of [s]: what is left of [s]. *)
Fixpoint strip_prefix (p s : string) : option string :=
  match p with
  | EmptyString => Some s
  | String a p' =>
      match s with
      | EmptyString => None
      | String b s' => if Ascii.eqb a b then strip_prefix p' s' else None
      end
  end.

(** [(?:p)?] followed by [k]: with [p] first, then without. *)
Definition optional {R : Type} (p s : string) (k : string -> option R) : option R :=
  match strip_prefix p s with
  | Some rest =>
      match k rest with
      | Some r => Some r
      | None => k s
      end
  | None => k s
  end.

(** [[c]+] followed by [k]: the longest run first, then one character less
    at a time, down to one character; [k] gets the run and what is left. *)
Fixpoint one_or_more {R : Type} (c : ascii -> bool) (s : string)
         (k : string -> string -> option R) : option R :=
  match s with
  | EmptyString => None
  | String a s' =>
      if c a then
        match one_or_more c s' (fun g rest => k (String a g) rest) with
        | Some r => Some r
        | None => k (String a EmptyString) s'
        end
      else None
  end.

(** [([\w\-\.]+)\.([\w\-]+)]: the two groups. *)
Definition match_host (s : string) : option (string * string) :=
  one_or_more host_char s
    (fun g1 rest =>
       match rest with
       | String a rest' =>
           if Ascii.eqb a "."%char
           then one_or_more label_char rest' (fun g2 _ => Some (g1, g2))
           else None
       | EmptyString => None
       end).

(** The whole pattern at the start of [s]. *)
Definition match_url (s : string) : option (string * string) :=
  let scheme :=
    match strip_prefix "http" s with
    | Some r1 =>
        optional "s" r1
          (fun r2 =>
             match strip_prefix "://" r2 with
             | Some r3 => optional "www." r3 match_host
             | None => None
             end)
    | None => None
    end in
  match scheme with
  | Some r => Some r
  | None =>
      match strip_prefix "sc-domain:" s with
      | Some r => match_host r
      | None => None
      end
  end.

(** [re.search]: the first position of [s] where the pattern matches. *)
Fixpoint search_url (s : string) : option (string * string) :=
  match match_url s with
  | Some r => Some r
  | None =>
      match s with
      | EmptyString => None
      | String _ s' => search_url s'
      end
  end.

(** [s.replace('.', '_')] *)
Fixpoint replace_dots (s : string) : string :=
  match s with
  | EmptyString => EmptyString
  | String a s' =>
      String (if Ascii.eqb a "."%char then "_"%char else a) (replace_dots s')
  end.

(** Lines 364-369. *)
Definition extract_full_domain (input_string : string) : string :=
  match search_url input_string with
  | Some (g1, g2) => replace_dots (g1 ++ g2)%string
  | None => EmptyString
  end.

(** What ends a host name: the end of the text or a character that cannot
    be part of one. *)
Definition host_ends (rest : string) : Prop :=
  match rest with
  | EmptyString => True
  | String a _ => host_char a = false
  end.

(** All characters of [s] satisfy [c]. *)
Definition all_chars (c : ascii -> bool) (s : string) : Prop :=
  Forall (fun a => c a = true) (list_ascii_of_string s).

(** ** Session state ([init_session_state], lines 47-71) *)

(** The values the routine stores: [None], a string or a date. *)
Inductive sval : Type :=
| SNone
| SStr (s : string)
| SDate (d : Z).

(** [st.session_state] as the list of its items. *)
Definition session : Type := list (string * sval).

(** [st.session_state.k] *)
Fixpoint state_get (k : string) (s : session) : option sval :=
  match s with
  | [] => None
  | (k', v) :: s' => if String.eqb k' k then Some v else state_get k s'
  end.

(** ['k' in st.session_state] *)
Definition state_mem (k : string) (s : session) : bool :=
  match state_get k s with Some _ => true | None => false end.

(** [st.session_state.k = v] *)
Fixpoint state_set (k : string) (v : sval) (s : session) : session :=
  match s with
  | [] => [(k, v)]
  | (k', v') :: s' =>
      if String.eqb k' k then (k, v) :: s' else (k', v') :: state_set k v s'
  end.

(** [if 'k' not in st.session_state: st.session_state.k = v]; the value is
    computed only when the key is missing, and [None] for it says that the
    computation raises. *)
Definition set_default (k : string) (v : option sval) (s : session) : option session :=
  if state_mem k s then Some s
  else match v with
       | Some v' => Some (state_set k v' s)
       | None => None
       end.

Definition and_then {A B : Type} (x : option A) (f : A -> option B) : option B :=
  match x with
  | Some a => f a
  | None => None
  end.

(** Lines 52-71. [today] is the value of [datetime.date.today()], taken to
    be the same day at each of its four calls. *)
Definition init_session_state (today : Z) (s : session) : option session :=
  and_then (set_default "selected_property" (Some SNone) s) (fun s =>
  and_then (set_default "selected_date_range" (Some (SStr last_7_days)) s) (fun s =>
  and_then (set_default "start_date" (option_map SDate (date_minus_days today 7)) s) (fun s =>
  and_then (set_default "end_date" (Some (SDate today)) s) (fun s =>
  and_then (set_default "selected_device" (Some (SStr "Todos")) s) (fun s =>
  and_then (set_default "custom_start_date" (option_map SDate (date_minus_days today 7)) s) (fun s =>
  and_then (set_default "custom_end_date" (Some (SDate today)) s) (fun s =>
  and_then (set_default "brand_term" (Some SNone) s) (fun s =>
  and_then (set_default "metrics" (Some (SStr "clicks")) s) (fun s =>
  set_default "zero_clicks" (Some (SStr "No")) s))))))))).

(** The keys the routine looks after. *)
Definition session_keys : list string :=
  ["selected_property"; "selected_date_range"; "start_date"; "end_date";
   "selected_device"; "custom_start_date"; "custom_end_date"; "brand_term";
   "metrics"; "zero_clicks"].

(** * Properties *)

(** ** Order on strings *)

Lemma ascii_compare_refl (a : ascii) : Ascii.compare a a = Eq.
Proof. unfold Ascii.compare. apply N.compare_refl. Qed.

Lemma ascii_compare_lt_trans (a b c : ascii) :
  Ascii.compare a b = Lt -> Ascii.compare b c = Lt -> Ascii.compare a c = Lt.
Proof.
  unfold Ascii.compare. rewrite !N.compare_lt_iff. apply N.lt_trans.
Qed.

Lemma string_compare_refl (s : string) : String.compare s s = Eq.
Proof.
  induction s as [|a s IH]; simpl; [reflexivity|].
  now rewrite ascii_compare_refl.
Qed.

Lemma string_compare_eq (s1 s2 : string) : String.compare s1 s2 = Eq <-> s1 = s2.
Proof.
  split; [apply String.compare_eq_iff|].
  intros ->. apply string_compare_refl.
Qed.

Lemma string_compare_lt_trans (s1 s2 s3 : string) :
  String.compare s1 s2 = Lt -> String.compare s2 s3 = Lt -> String.compare s1 s3 = Lt.
Proof.
  revert s2 s3.
  induction s1 as [|a s1 IH]; intros [|b s2] [|c s3]; simpl; try congruence.
  destruct (Ascii.compare a b) eqn:Hab; try discriminate.
  - apply Ascii.compare_eq_iff in Hab. subst b.
    destruct (Ascii.compare a c); try congruence. apply IH.
  - intros _.
    destruct (Ascii.compare b c) eqn:Hbc; try discriminate.
    + apply Ascii.compare_eq_iff in Hbc. subst c. now rewrite Hab.
    + now rewrite (ascii_compare_lt_trans _ _ _ Hab Hbc).
Qed.

(** ** The comparison of [sort_values] is a total preorder *)

Section SortLeb.
Context {A : Type} (k1 : A -> string) (k2 : A -> Z).

Lemma sort_leb_total (a b : A) :
  sort_leb k1 k2 a b = true \/ sort_leb k1 k2 b a = true.
Proof.
  unfold sort_leb. rewrite (String.compare_antisym (k1 b) (k1 a)).
  destruct (String.compare (k1 a) (k1 b)); simpl; auto.
  rewrite !Z.leb_le. lia.
Qed.

Lemma sort_leb_trans (a b c : A) :
  sort_leb k1 k2 a b = true -> sort_leb k1 k2 b c = true ->
  sort_leb k1 k2 a c = true.
Proof.
  unfold sort_leb.
  destruct (String.compare (k1 a) (k1 b)) eqn:Hab; try discriminate;
    destruct (String.compare (k1 b) (k1 c)) eqn:Hbc; try discriminate.
  - apply string_compare_eq in Hab. rewrite Hab, Hbc.
    rewrite !Z.leb_le. lia.
  - apply string_compare_eq in Hab. rewrite Hab, Hbc. reflexivity.
  - apply string_compare_eq in Hbc. rewrite <- Hbc, Hab. reflexivity.
  - rewrite (string_compare_lt_trans _ _ _ Hab Hbc). reflexivity.
Qed.

(** On rows of one key the comparison is the one of the metric, reversed. *)
Lemma sort_leb_same_key (a b : A) :
  k1 a = k1 b -> sort_leb k1 k2 a b = (k2 b <=? k2 a).
Proof.
  intros H. unfold sort_leb. rewrite H, string_compare_refl. reflexivity.
Qed.

(** What [sort_leb] says, as a proposition. *)
Lemma sort_leb_spec (a b : A) :
  sort_leb k1 k2 a b = true <->
  String.compare (k1 a) (k1 b) = Lt \/ (k1 a = k1 b /\ k2 b <= k2 a).
Proof.
  unfold sort_leb.
  destruct (String.compare (k1 a) (k1 b)) eqn:H.
  - apply string_compare_eq in H. rewrite Z.leb_le. split.
    + auto.
    + intros [H'|[_ H']]; [discriminate|exact H'].
  - split; auto.
  - split; [discriminate|].
    intros [H'|[H' _]]; [discriminate|].
    rewrite H', string_compare_refl in H. discriminate.
Qed.
End SortLeb.

(** ** Stable sorting *)

Section StableSort.
Context {A : Type} (leb : A -> A -> bool).

Lemma insert_stable_perm (x : A) (l : list A) :
  Permutation (insert_stable leb x l) (x :: l).
Proof.
  induction l as [|y l IH]; simpl; [reflexivity|].
  destruct (leb x y); [reflexivity|].
  rewrite IH. apply perm_swap.
Qed.

Lemma stable_sort_perm (l : list A) : Permutation (stable_sort leb l) l.
Proof.
  induction l as [|x l IH]; simpl; [reflexivity|].
  rewrite insert_stable_perm. now constructor.
Qed.

Lemma stable_sort_length (l : list A) :
  List.length (stable_sort leb l) = List.length l.
Proof. apply Permutation_length, stable_sort_perm. Qed.

Lemma stable_sort_In (x : A) (l : list A) : In x (stable_sort leb l) <-> In x l.
Proof.
  split; apply Permutation_in;
    [apply stable_sort_perm | apply Permutation_sym, stable_sort_perm].
Qed.

Hypothesis leb_total : forall a b, leb a b = true \/ leb b a = true.
Hypothesis leb_trans :
  forall a b c, leb a b = true -> leb b c = true -> leb a c = true.

Lemma insert_stable_sorted (x : A) (l : list A) :
  StronglySorted (fun a b => leb a b = true) l -> StronglySorted (fun a b => leb a b = true) (insert_stable leb x l).
Proof.
  induction 1 as [|y l Hs IH Hy]; simpl.
  - repeat constructor.
  - destruct (leb x y) eqn:Hxy.
    + constructor; [now constructor|].
      constructor; [exact Hxy|].
      eapply Forall_impl; [|exact Hy]. intros z Hz. now apply leb_trans with y.
    + constructor; [exact IH|].
      eapply Permutation_Forall; [symmetry; apply insert_stable_perm|].
      constructor; [|exact Hy].
      destruct (leb_total x y) as [H|H]; [congruence|exact H].
Qed.

Lemma stable_sort_sorted (l : list A) : StronglySorted (fun a b => leb a b = true) (stable_sort leb l).
Proof.
  induction l as [|x l IH]; simpl; [constructor|].
  now apply insert_stable_sorted.
Qed.

(** Insertion below everything is a cons. *)
Lemma insert_stable_least (x : A) (l : list A) :
  Forall (fun y => leb x y = true) l -> insert_stable leb x l = x :: l.
Proof.
  destruct 1 as [|y l Hy _]; simpl; [reflexivity|].
  now rewrite Hy.
Qed.

(** Stability: a selection of rows is sorted as it would be alone. *)
Lemma filter_insert_stable (p : A -> bool) (x : A) (l : list A) :
  StronglySorted (fun a b => leb a b = true) l ->
  filter p (insert_stable leb x l) =
  if p x then insert_stable leb x (filter p l) else filter p l.
Proof.
  induction 1 as [|y l Hs IH Hy]; simpl.
  - destruct (p x); reflexivity.
  - destruct (leb x y) eqn:Hxy; simpl.
    + destruct (p x) eqn:Hpx; [|reflexivity].
      symmetry. apply insert_stable_least.
      assert (Hall : Forall (fun y => leb x y = true) (y :: l)).
      { constructor; [exact Hxy|].
        eapply Forall_impl; [|exact Hy]. intros z Hz. now apply leb_trans with y. }
      apply Forall_forall. intros z Hz.
      apply (proj1 (Forall_forall _ _) Hall).
      exact (proj1 (proj1 (filter_In p z (y :: l)) Hz)).
    + rewrite IH. destruct (p y) eqn:Hpy; destruct (p x) eqn:Hpx; simpl;
        rewrite ?Hxy; reflexivity.
Qed.

Lemma filter_stable_sort (p : A -> bool) (l : list A) :
  filter p (stable_sort leb l) = stable_sort leb (filter p l).
Proof.
  induction l as [|x l IH]; simpl; [reflexivity|].
  rewrite filter_insert_stable by apply stable_sort_sorted.
  rewrite IH. destruct (p x); reflexivity.
Qed.

(** The head of the sorted list is the first least element of the input:
    everything before it is strictly after it in the order, everything
    behind it is not before it. *)
Lemma stable_sort_head (l : list A) :
  l <> [] ->
  exists l1 r l2 rest,
    l = l1 ++ r :: l2 /\
    stable_sort leb l = r :: rest /\
    Forall (fun y => leb y r = false) l1 /\
    Forall (fun y => leb r y = true) l2.
Proof.
  induction l as [|x l IH]; [congruence|]. intros _.
  destruct l as [|x' l'].
  - exists [], x, [], []. simpl. repeat split; constructor.
  - destruct IH as (l1 & r & l2 & rest & Hl & Hs & H1 & H2); [discriminate|].
    cbn [stable_sort] in *. rewrite Hs. rewrite Hl. simpl.
    destruct (leb x r) eqn:Hxr.
    + exists [], x, (l1 ++ r :: l2), (r :: rest). simpl.
      repeat split; [constructor|].
      apply Forall_app. split.
      * eapply Forall_impl; [|exact H1]. intros y Hy. simpl in Hy.
        destruct (leb_total y r) as [H|H]; [congruence|].
        now apply leb_trans with r.
      * constructor; [exact Hxr|].
        eapply Forall_impl; [|exact H2]. intros y Hy. simpl in Hy.
        now apply leb_trans with r.
    + exists (x :: l1), r, l2, (insert_stable leb x rest). simpl.
      repeat split; [|exact H2].
      constructor; [exact Hxr|exact H1].
Qed.
End StableSort.

(** ** The aggregation, row by row *)

Lemma add_columns_map (f : Rec.t -> string) (g : Rec.t -> Z) (df : list Rec.t) :
  add_columns df (map f df) (map g df) = map (fun r => project r (f r) (g r)) df.
Proof.
  induction df as [|r df IH]; simpl; [reflexivity|]. now rewrite IH.
Qed.

(** Sorting the frame sorts every page group on its own. *)
Lemma group_of_sort_values (m : Metric) (df : list Rec.t) (p : string) :
  group_of Rec.page (sort_values Rec.page (rec_metric m) df) p =
  sort_values Rec.page (rec_metric m) (group_of Rec.page df p).
Proof.
  unfold group_of, sort_values.
  apply filter_stable_sort; [apply sort_leb_total | apply sort_leb_trans].
Qed.

Lemma group_of_In {A : Type} (key : A -> string) (df : list A) (k : string) (r : A) :
  In r (group_of key df k) <-> In r df /\ key r = k.
Proof.
  unfold group_of. rewrite filter_In, String.eqb_eq. reflexivity.
Qed.

Lemma group_of_nonempty {A : Type} (key : A -> string) (df : list A) (r : A) :
  In r df -> group_of key df (key r) <> [].
Proof.
  intros H Hg.
  assert (Hin : In r (group_of key df (key r))) by (apply group_of_In; auto).
  rewrite Hg in Hin. exact Hin.
Qed.

(** The rows of [aggregate]: every row of the page-sorted frame with the
    first query and the size of its page group, sorted for the output. *)
Lemma aggregate_rows (m : Metric) (df : list Rec.t) :
  let s := sort_values Rec.page (rec_metric m) df in
  rows (aggregate m df) =
  sort_values Ranked.top_query (ranked_metric m)
    (map (fun r =>
            project r
              (match group_of Rec.page s (Rec.page r) with
               | [] => Rec.query r
               | r0 :: _ => Rec.query r0
               end)
              (Z.of_nat (List.length (group_of Rec.page s (Rec.page r))))) s).
Proof.
  unfold aggregate, transform_first, transform_count. simpl.
  now rewrite add_columns_map.
Qed.

(** A row of the output comes from a row [r] of the input; its two new
    columns are read off the sorted page group of [r]. *)
Lemma aggregate_row_inv (m : Metric) (df : list Rec.t) (o : Ranked.t) :
  In o (rows (aggregate m df)) ->
  exists r g,
    In r df /\ produced_from o r /\
    sort_values Rec.page (rec_metric m) (group_of Rec.page df (Rec.page r)) = g /\
    Ranked.top_query o = match g with [] => Rec.query r | r0 :: _ => Rec.query r0 end /\
    Ranked.q_pages_top_query o = Z.of_nat (List.length g).
Proof.
  rewrite aggregate_rows. cbv zeta. unfold sort_values at 1.
  rewrite stable_sort_In, in_map_iff.
  intros (r & Ho & Hr).
  apply stable_sort_In in Hr.
  rewrite group_of_sort_values in Ho.
  exists r, (sort_values Rec.page (rec_metric m) (group_of Rec.page df (Rec.page r))).
  subst o. unfold produced_from. simpl. auto 10.
Qed.

(** Every row of the input has a row in the output. *)
Lemma aggregate_row_of (m : Metric) (df : list Rec.t) (r : Rec.t) :
  In r df -> exists o, In o (rows (aggregate m df)) /\ produced_from o r.
Proof.
  intros Hr. rewrite aggregate_rows. cbv zeta.
  eexists. split.
  - unfold sort_values at 1. apply stable_sort_In. apply in_map.
    apply stable_sort_In. exact Hr.
  - unfold produced_from. simpl. auto.
Qed.

(** The call returns the aggregation of the filtered frame. *)
Lemma get_top_query_returns (df : list Rec.t) (m : Metric) (brand_term : string)
      (zero_clicks : pyval) (df' : list Rec.t) :
  df <> [] ->
  filtered_input brand_term zero_clicks df = Some df' ->
  get_top_query df m brand_term zero_clicks = Returned (aggregate m df').
Proof.
  intros Hne Hf. unfold get_top_query. rewrite Hf.
  destruct df; [congruence|reflexivity].
Qed.

(** ** Top query of a page *)

(** C1. For every page of the filtered frame, the call returns a frame in
    which the rows of that page all carry, as [top_query], the query of one
    record [r] of the page's group: the metric of [r] is the maximum of the
    group, and the records of the group that come before [r] in the filtered
    frame are strictly below it (among equal maxima the first one wins). *)
Theorem top_query_first_maximum
        (df : list Rec.t) (m : Metric) (brand_term : string) (zero_clicks : pyval)
        (df' : list Rec.t) (p : string) :
  df <> [] ->
  filtered_input brand_term zero_clicks df = Some df' ->
  In p (map Rec.page df') ->
  exists t l1 r l2,
    get_top_query df m brand_term zero_clicks = Returned t /\
    group_of Rec.page df' p = l1 ++ r :: l2 /\
    Forall (fun x => rec_metric m x < rec_metric m r) l1 /\
    Forall (fun x => rec_metric m x <= rec_metric m r) l2 /\
    (exists o, In o (rows t) /\ Ranked.page o = p) /\
    (forall o, In o (rows t) -> Ranked.page o = p ->
               Ranked.top_query o = Rec.query r).
Proof.
  intros Hne Hf Hp.
  apply in_map_iff in Hp. destruct Hp as (r0 & Hr0p & Hr0).
  assert (Hg : group_of Rec.page df' p <> []).
  { subst p. now apply group_of_nonempty. }
  destruct (stable_sort_head (sort_leb Rec.page (rec_metric m))
              (sort_leb_total _ _) (sort_leb_trans _ _) _ Hg)
    as (l1 & r & l2 & rest & Hl & Hs & H1 & H2).
  assert (Hpage : forall x, In x (group_of Rec.page df' p) -> Rec.page x = p).
  { intros x Hx. now apply group_of_In in Hx. }
  assert (Hr : Rec.page r = p).
  { apply Hpage. rewrite Hl. apply in_or_app. right. now left. }
  exists (aggregate m df'), l1, r, l2.
  split; [now apply get_top_query_returns|].
  split; [exact Hl|].
  split; [|split; [|split]].
  - apply Forall_forall. intros x Hx.
    pose proof (proj1 (Forall_forall _ _) H1 x Hx) as Hlt. cbv beta in Hlt.
    rewrite sort_leb_same_key in Hlt.
    + apply Z.leb_gt in Hlt. exact Hlt.
    + rewrite Hr. apply Hpage. rewrite Hl. apply in_or_app. now left.
  - apply Forall_forall. intros x Hx.
    pose proof (proj1 (Forall_forall _ _) H2 x Hx) as Hle. cbv beta in Hle.
    rewrite sort_leb_same_key in Hle.
    + apply Z.leb_le in Hle. exact Hle.
    + rewrite Hr. symmetry. apply Hpage. rewrite Hl.
      apply in_or_app. right. now right.
  - destruct (aggregate_row_of m df' r0 Hr0) as (o & Ho & Hpo).
    exists o. split; [exact Ho|].
    destruct Hpo as (_ & Hpg & _). congruence.
  - intros o Ho Hop.
    destruct (aggregate_row_inv m df' o Ho) as (r1 & g & _ & Hpo & Hg1 & Htop & _).
    destruct Hpo as (_ & Hpg & _).
    assert (Hr1 : Rec.page r1 = p) by congruence.
    rewrite Hr1 in Hg1. unfold sort_values in Hg1. rewrite Hs in Hg1.
    subst g. exact Htop.
Qed.

Lemma top_query_first_maximum_witness :
  exists t l1 r l2,
    get_top_query sample_frame MClicks "" (PyStr "No") = Returned t /\
    group_of Rec.page sample_frame "/x" = l1 ++ r :: l2 /\
    Forall (fun x => rec_metric MClicks x < rec_metric MClicks r) l1 /\
    Forall (fun x => rec_metric MClicks x <= rec_metric MClicks r) l2 /\
    (exists o, In o (rows t) /\ Ranked.page o = "/x") /\
    (forall o, In o (rows t) -> Ranked.page o = "/x" ->
               Ranked.top_query o = Rec.query r).
Proof.
  apply (top_query_first_maximum sample_frame MClicks "" (PyStr "No") sample_frame "/x").
  - discriminate.
  - reflexivity.
  - simpl. auto.
Defined.

(** ** Order and columns of the returned frame *)

Lemma StronglySorted_weaken {A : Type} (R S : A -> A -> Prop) (l : list A) :
  (forall a b, R a b -> S a b) -> StronglySorted R l -> StronglySorted S l.
Proof.
  intros HRS. induction 1 as [|a l Hs IH Ha]; constructor; [exact IH|].
  eapply Forall_impl; [|exact Ha]. intros b. apply HRS.
Qed.

Lemma aggregate_sorted (m : Metric) (df : list Rec.t) :
  StronglySorted (output_le m) (rows (aggregate m df)).
Proof.
  rewrite aggregate_rows. cbv zeta. unfold sort_values at 1.
  eapply StronglySorted_weaken;
    [| apply stable_sort_sorted; [apply sort_leb_total | apply sort_leb_trans]].
  intros a b Hab. apply sort_leb_spec in Hab. exact Hab.
Qed.

(** C3. The call on a frame that survives the filters returns a frame whose
    rows are sorted, as a whole, by [top_query] ascending and, among equal
    [top_query], by the metric descending; its columns are [top_query],
    [query], [clicks], [impressions], [ctr], [q_pages_top_query], [page],
    in that order. *)
Theorem output_sorted_with_seven_columns
        (df : list Rec.t) (m : Metric) (brand_term : string) (zero_clicks : pyval)
        (df' : list Rec.t) :
  df <> [] ->
  filtered_input brand_term zero_clicks df = Some df' ->
  df' <> [] ->
  exists t,
    get_top_query df m brand_term zero_clicks = Returned t /\
    rows t <> [] /\
    StronglySorted (output_le m) (rows t) /\
    columns t =
    ["top_query"; "query"; "clicks"; "impressions"; "ctr"; "q_pages_top_query"; "page"].
Proof.
  intros Hne Hf Hne'. exists (aggregate m df').
  split; [now apply get_top_query_returns|].
  split; [|split; [apply aggregate_sorted | reflexivity]].
  destruct df' as [|r df']; [congruence|].
  destruct (aggregate_row_of m (r :: df') r (or_introl eq_refl)) as (o & Ho & _).
  intros Hnil. rewrite Hnil in Ho. exact Ho.
Qed.

Lemma output_sorted_with_seven_columns_witness :
  exists t,
    get_top_query sample_frame_zero MImpressions "c" (PyStr "Si") = Returned t /\
    rows t <> [] /\
    StronglySorted (output_le MImpressions) (rows t) /\
    columns t =
    ["top_query"; "query"; "clicks"; "impressions"; "ctr"; "q_pages_top_query"; "page"].
Proof.
  apply (output_sorted_with_seven_columns sample_frame_zero MImpressions "c" (PyStr "Si")
           [sample_row "a" "/x" 5 90; sample_row "b" "/x" 10 40]).
  - discriminate.
  - reflexivity.
  - discriminate.
Defined.

(** ** Provenance of the rows *)

Lemma Forall2_map_self {A B : Type} (R : B -> A -> Prop) (f : A -> B) (l : list A) :
  (forall a, In a l -> R (f a) a) -> Forall2 R (map f l) l.
Proof.
  induction l as [|a l IH]; simpl; intros H; constructor.
  - apply H. now left.
  - apply IH. intros b Hb. apply H. now right.
Qed.

(** The rows of the output are, in order, the images of the rows of a
    rearrangement of the input. *)
Lemma aggregate_rearranges (m : Metric) (df : list Rec.t) :
  exists l,
    Permutation l df /\
    Forall2 (fun o r =>
               produced_from o r /\
               In (Ranked.top_query o) (map Rec.query (group_of Rec.page df (Rec.page r))) /\
               Ranked.q_pages_top_query o =
               Z.of_nat (List.length (group_of Rec.page df (Rec.page r))))
            (rows (aggregate m df)) l.
Proof.
  rewrite aggregate_rows. cbv zeta.
  set (s := sort_values Rec.page (rec_metric m) df).
  set (f := fun r : Rec.t => project r _ _).
  assert (Hs : Permutation s df) by apply stable_sort_perm.
  assert (Hp : Permutation (sort_values Ranked.top_query (ranked_metric m) (map f s))
                           (map f s)) by apply stable_sort_perm.
  apply Permutation_map_inv in Hp. destruct Hp as (l & Hl & Hsl).
  exists l. split.
  - apply Permutation_trans with s; [now apply Permutation_sym | exact Hs].
  - rewrite Hl. apply Forall2_map_self. intros r Hr.
    assert (Hrdf : In r df).
    { eapply Permutation_in; [exact Hs|].
      eapply Permutation_in; [apply Permutation_sym; exact Hsl | exact Hr]. }
    unfold f, s. rewrite group_of_sort_values.
    split; [unfold produced_from; simpl; auto|]. simpl.
    split.
    + pose proof (group_of_nonempty Rec.page df r Hrdf) as Hg.
      unfold sort_values.
      destruct (stable_sort_head (sort_leb Rec.page (rec_metric m))
                  (sort_leb_total _ _) (sort_leb_trans _ _) _ Hg)
        as (l1 & r1 & l2 & rest & Hg1 & Hsort & _).
      rewrite Hsort, Hg1. apply in_map. apply in_or_app. right. now left.
    + unfold sort_values. now rewrite stable_sort_length.
Qed.

(** C4. The call returns a frame whose rows are, one for one and in order,
    the rows of a rearrangement of the filtered frame: every output row has
    the page (and the other columns) of its input row, its [top_query] is a
    query of a filtered record of that page, and its [q_pages_top_query] is
    the number of filtered records of that page. *)
Theorem output_rows_annotate_input
        (df : list Rec.t) (m : Metric) (brand_term : string) (zero_clicks : pyval)
        (df' : list Rec.t) :
  df <> [] ->
  filtered_input brand_term zero_clicks df = Some df' ->
  exists t l,
    get_top_query df m brand_term zero_clicks = Returned t /\
    Permutation l df' /\
    Forall2 (fun o r =>
               Ranked.page o = Rec.page r /\
               produced_from o r /\
               In (Ranked.top_query o)
                  (map Rec.query (group_of Rec.page df' (Rec.page r))) /\
               Ranked.q_pages_top_query o =
               Z.of_nat (List.length (group_of Rec.page df' (Rec.page r))))
            (rows t) l.
Proof.
  intros Hne Hf.
  destruct (aggregate_rearranges m df') as (l & Hl & HF).
  exists (aggregate m df'), l.
  split; [now apply get_top_query_returns|].
  split; [exact Hl|].
  eapply Forall2_impl; [|exact HF].
  intros o r (Hp & Hin & Hc). repeat split; try assumption; apply Hp.
Qed.

Lemma output_rows_annotate_input_witness :
  exists t l,
    get_top_query sample_frame_zero MClicks "" (PyStr "Si") = Returned t /\
    Permutation l sample_frame /\
    Forall2 (fun o r =>
               Ranked.page o = Rec.page r /\
               produced_from o r /\
               In (Ranked.top_query o)
                  (map Rec.query (group_of Rec.page sample_frame (Rec.page r))) /\
               Ranked.q_pages_top_query o =
               Z.of_nat (List.length (group_of Rec.page sample_frame (Rec.page r))))
            (rows t) l.
Proof.
  apply (output_rows_annotate_input sample_frame_zero MClicks "" (PyStr "Si") sample_frame).
  - discriminate.
  - reflexivity.
Defined.

(** C7. The call returns as many rows as the filtered frame has, whether or
    not some of them share their query and page. *)
Theorem output_keeps_every_row
        (df : list Rec.t) (m : Metric) (brand_term : string) (zero_clicks : pyval)
        (df' : list Rec.t) :
  df <> [] ->
  filtered_input brand_term zero_clicks df = Some df' ->
  exists t,
    get_top_query df m brand_term zero_clicks = Returned t /\
    List.length (rows t) = List.length df'.
Proof.
  intros Hne Hf. exists (aggregate m df').
  split; [now apply get_top_query_returns|].
  destruct (aggregate_rearranges m df') as (l & Hl & HF).
  rewrite (Forall2_length HF). now apply Permutation_length.
Qed.

Lemma output_keeps_every_row_witness :
  exists t,
    get_top_query (sample_frame ++ sample_frame) MClicks "" (PyStr "No") = Returned t /\
    List.length (rows t) = List.length (sample_frame ++ sample_frame).
Proof.
  apply (output_keeps_every_row (sample_frame ++ sample_frame) MClicks "" (PyStr "No")).
  - discriminate.
  - reflexivity.
Defined.

(** ** Filters *)

Lemma aggregate_nil (m : Metric) : aggregate m [] = mkTable output_columns [].
Proof. reflexivity. Qed.

(** The output rows are the rows of a rearrangement of the aggregated frame. *)
Lemma aggregate_produced (m : Metric) (df : list Rec.t) :
  exists l, Permutation l df /\ Forall2 produced_from (rows (aggregate m df)) l.
Proof.
  destruct (aggregate_rearranges m df) as (l & Hl & HF).
  exists l. split; [exact Hl|].
  eapply Forall2_impl; [|exact HF]. intros o r H. apply H.
Qed.

(** C2, as the code has it. The call raises the exception
    ["No hay Dataframe"] exactly when the frame of the record source is
    empty, and the exception is then the only result. When the brand
    pattern is one the model covers, this is the only exception of the
    call; in particular a frame emptied by the filters is no failure, and
    the call returns a report without rows. *)
Theorem raises_iff_source_empty
        (df : list Rec.t) (m : Metric) (brand_term : string) (zero_clicks : pyval) :
  (get_top_query df m brand_term zero_clicks = Raised "No hay Dataframe" <-> df = []) /\
  (forall df',
      filtered_input brand_term zero_clicks df = Some df' ->
      ((exists msg, get_top_query df m brand_term zero_clicks = Raised msg) <-> df = [])) /\
  (filtered_input brand_term zero_clicks df = Some [] ->
   df <> [] ->
   exists t, get_top_query df m brand_term zero_clicks = Returned t /\ rows t = []).
Proof.
  unfold get_top_query. destruct df as [|r df].
  - split; [|split].
    + split; reflexivity.
    + intros df' _. split; [reflexivity|].
      intros _. now exists "No hay Dataframe"%string.
    + intros _ Hne. congruence.
  - split; [|split].
    + destruct (filtered_input brand_term zero_clicks (r :: df));
        split; discriminate.
    + intros df' Hf. rewrite Hf. split; [|discriminate].
      intros [msg H]. discriminate.
    + intros Hf _. rewrite Hf. exists (aggregate m []). now split.
Qed.

(** C2 fails as stated: the only record has no click, the zero-click filter
    removes it, and the call returns a frame instead of raising. *)
Lemma filtered_empty_does_not_raise :
  [sample_row "d" "/z" 0 3] <> [] /\
  filtered_input "" (PyStr "Si") [sample_row "d" "/z" 0 3] = Some [] /\
  get_top_query [sample_row "d" "/z" 0 3] MClicks "" (PyStr "Si") =
  Returned (mkTable output_columns []) /\
  ~ (exists msg,
        get_top_query [sample_row "d" "/z" 0 3] MClicks "" (PyStr "Si") = Raised msg).
Proof.
  repeat split; try discriminate. intros [msg H]. discriminate.
Qed.

(** C9. When the frame of the record source is not empty and the filters
    remove all its rows, the call does not raise: it returns the frame with
    the seven output columns and no row. *)
Theorem filtered_empty_returns_empty_table
        (df : list Rec.t) (m : Metric) (brand_term : string) (zero_clicks : pyval) :
  df <> [] ->
  filtered_input brand_term zero_clicks df = Some [] ->
  get_top_query df m brand_term zero_clicks =
  Returned (mkTable
              ["top_query"; "query"; "clicks"; "impressions"; "ctr";
               "q_pages_top_query"; "page"]
              []).
Proof.
  intros Hne Hf. rewrite (get_top_query_returns df m brand_term zero_clicks [] Hne Hf).
  reflexivity.
Qed.

Lemma filtered_empty_returns_empty_table_witness :
  get_top_query [sample_row "mybrand shoes" "/x" 4 9; sample_row "d" "/z" 0 3]
                MImpressions "brand" (PyStr "Si") =
  Returned (mkTable
              ["top_query"; "query"; "clicks"; "impressions"; "ctr";
               "q_pages_top_query"; "page"]
              []).
Proof.
  apply (filtered_empty_returns_empty_table
           [sample_row "mybrand shoes" "/x" 4 9; sample_row "d" "/z" 0 3]
           MImpressions "brand" (PyStr "Si")).
  - discriminate.
  - reflexivity.
Defined.

Lemma py_eq_str_true (v : pyval) (s : string) : py_eq_str v s = true <-> v = PyStr s.
Proof.
  destruct v; simpl; try (split; [discriminate|intros H; discriminate H]).
  rewrite String.eqb_eq. split; [intros ->; reflexivity | intros H; now inversion H].
Qed.

(** C6. With [zero_clicks] equal to ["Si"], the frame that is aggregated is
    the frame left by the brand filter without its records of no click: a
    record is in it exactly when the brand filter kept it and its clicks are
    positive, with its multiplicity and in its place; the call returns the
    aggregation of that frame. *)
Theorem zero_clicks_dropped_after_brand
        (df : list Rec.t) (m : Metric) (brand_term : string) (df_b : list Rec.t) :
  df <> [] ->
  brand_filter brand_term df = Some df_b ->
  exists df',
    filtered_input brand_term (PyStr "Si") df = Some df' /\
    df' = filter (fun r => 0 <? Rec.clicks r) df_b /\
    (forall r, In r df' <-> In r df_b /\ 0 < Rec.clicks r) /\
    (forall r, In r df_b -> Rec.clicks r <= 0 -> ~ In r df') /\
    get_top_query df m brand_term (PyStr "Si") = Returned (aggregate m df').
Proof.
  intros Hne Hb.
  assert (Hf : filtered_input brand_term (PyStr "Si") df =
               Some (filter (fun r => 0 <? Rec.clicks r) df_b)).
  { unfold filtered_input. rewrite Hb. reflexivity. }
  exists (filter (fun r => 0 <? Rec.clicks r) df_b).
  split; [exact Hf|]. split; [reflexivity|].
  split; [|split].
  - intros r. rewrite filter_In, Z.ltb_lt. reflexivity.
  - intros r _ Hle Hin. apply filter_In in Hin. destruct Hin as [_ Hpos].
    apply Z.ltb_lt in Hpos. lia.
  - now apply get_top_query_returns.
Qed.

Lemma zero_clicks_dropped_after_brand_witness :
  exists df',
    filtered_input "c" (PyStr "Si") sample_frame_zero = Some df' /\
    df' = filter (fun r => 0 <? Rec.clicks r)
                 [sample_row "a" "/x" 5 90; sample_row "b" "/x" 10 40;
                  sample_row "d" "/z" 0 3] /\
    (forall r, In r df' <->
               In r [sample_row "a" "/x" 5 90; sample_row "b" "/x" 10 40;
                     sample_row "d" "/z" 0 3] /\ 0 < Rec.clicks r) /\
    (forall r, In r [sample_row "a" "/x" 5 90; sample_row "b" "/x" 10 40;
                     sample_row "d" "/z" 0 3] ->
               Rec.clicks r <= 0 -> ~ In r df') /\
    get_top_query sample_frame_zero MClicks "c" (PyStr "Si") =
    Returned (aggregate MClicks df').
Proof.
  apply (zero_clicks_dropped_after_brand sample_frame_zero MClicks "c").
  - discriminate.
  - reflexivity.
Defined.

(** C10. With any value of [zero_clicks] other than the string ["Si"], no
    record is dropped for its clicks: the aggregated frame is the one the
    brand filter leaves, and every record of it, also one of no click, has
    its row in the returned frame. *)
Theorem zero_clicks_kept_unless_Si
        (df : list Rec.t) (m : Metric) (brand_term : string) (zero_clicks : pyval)
        (df_b : list Rec.t) :
  zero_clicks <> PyStr "Si" ->
  df <> [] ->
  brand_filter brand_term df = Some df_b ->
  exists t l,
    filtered_input brand_term zero_clicks df = Some df_b /\
    get_top_query df m brand_term zero_clicks = Returned t /\
    Permutation l df_b /\
    Forall2 produced_from (rows t) l.
Proof.
  intros Hz Hne Hb.
  assert (Hf : filtered_input brand_term zero_clicks df = Some df_b).
  { unfold filtered_input, zero_clicks_filter. rewrite Hb. simpl.
    destruct (py_eq_str zero_clicks "Si") eqn:He; [|reflexivity].
    apply py_eq_str_true in He. contradiction. }
  destruct (aggregate_produced m df_b) as (l & Hl & HF).
  exists (aggregate m df_b), l.
  split; [exact Hf|]. split; [now apply get_top_query_returns|]. now split.
Qed.

Lemma zero_clicks_kept_unless_Si_witness :
  exists t l,
    filtered_input "" (PyBool true) sample_frame_zero = Some sample_frame_zero /\
    get_top_query sample_frame_zero MClicks "" (PyBool true) = Returned t /\
    Permutation l sample_frame_zero /\
    Forall2 produced_from (rows t) l.
Proof.
  apply (zero_clicks_kept_unless_Si sample_frame_zero MClicks "" (PyBool true)).
  - discriminate.
  - discriminate.
  - reflexivity.
Defined.

(** ** The brand filter on terms without special characters *)

Lemma split_on_no_sep (c : ascii) (x : string) :
  Forall (fun a => Ascii.eqb a c = false) (list_ascii_of_string x) ->
  split_on c x = [x].
Proof.
  induction x as [|a x IH]; simpl; intros H; [reflexivity|].
  inversion H as [|? ? Ha Hx]; subst. rewrite Ha, (IH Hx). reflexivity.
Qed.

Lemma split_on_app (c : ascii) (x rest : string) :
  Forall (fun a => Ascii.eqb a c = false) (list_ascii_of_string x) ->
  split_on c (x ++ String c rest)%string = x :: split_on c rest.
Proof.
  induction x as [|a x IH]; simpl; intros H.
  - now rewrite Ascii.eqb_refl.
  - inversion H as [|? ? Ha Hx]; subst. rewrite Ha, (IH Hx). reflexivity.
Qed.

(** Splitting a joined list at the separator gives the list back. *)
Lemma split_on_join (c : ascii) (l : list string) :
  l <> [] ->
  Forall (fun x => Forall (fun a => Ascii.eqb a c = false) (list_ascii_of_string x)) l ->
  split_on c (join (String c EmptyString) l) = l.
Proof.
  induction l as [|x l IH]; [congruence|]. intros _ H.
  inversion H as [|? ? Hx Hl]; subst.
  destruct l as [|y l].
  - simpl. now apply split_on_no_sep.
  - change (join (String c EmptyString) (x :: y :: l))
      with (x ++ String c (join (String c EmptyString) (y :: l)))%string.
    rewrite split_on_app by exact Hx.
    rewrite IH; [reflexivity | discriminate | exact Hl].
Qed.

Lemma is_meta_bar (a : ascii) : is_meta a = false -> Ascii.eqb a bar = false.
Proof.
  unfold is_meta, bar. simpl. intros H.
  repeat (apply orb_false_elim in H; destruct H as [? H]); assumption.
Qed.

Lemma is_meta_dot (a : ascii) : is_meta a = false -> Ascii.eqb a "."%char = false.
Proof.
  unfold is_meta. simpl. intros H.
  now apply orb_false_elim in H.
Qed.

Lemma parse_branch_plain (t : string) : plain t -> parse_branch t = Some (literal t).
Proof.
  unfold plain, literal.
  induction t as [|a t IH]; simpl; intros H; [reflexivity|].
  inversion H as [|? ? Ha Ht]; subst.
  rewrite (is_meta_dot a Ha), Ha, (IH Ht). reflexivity.
Qed.

Lemma parse_branches_plain (l : list string) :
  Forall plain l -> parse_branches l = Some (map literal l).
Proof.
  induction 1 as [|t l Ht Hl IH]; simpl; [reflexivity|].
  now rewrite (parse_branch_plain t Ht), IH.
Qed.

Lemma re_compile_plain (l : list string) :
  l <> [] -> Forall plain l -> re_compile (join "|" l) = Some (map literal l).
Proof.
  intros Hne Hl. unfold re_compile.
  change "|"%string with (String bar EmptyString).
  rewrite split_on_join; [now apply parse_branches_plain | exact Hne |].
  eapply Forall_impl; [|exact Hl]. intros t Ht.
  eapply Forall_impl; [|exact Ht]. apply is_meta_bar.
Qed.

(** A literal branch matches at the start of [s] when [s] starts with it. *)
Lemma match_here_literal (t s : string) :
  match_here (literal t) s = true <-> exists post, s = (t ++ post)%string.
Proof.
  unfold literal. revert s.
  induction t as [|a t IH]; intros s; simpl.
  - split; [intros _; now exists s | reflexivity].
  - destruct s as [|b s]; simpl.
    + split; [discriminate | intros [post H]; discriminate].
    + rewrite andb_true_iff, Ascii.eqb_eq, IH. split.
      * intros [-> [post ->]]. now exists post.
      * intros [post H]. inversion H; subst. split; [reflexivity | now exists post].
Qed.

Lemma re_search_spec (bs : list (list re_atom)) (s : string) :
  re_search bs s = true <->
  exists pre post, s = (pre ++ post)%string /\ match_any bs post = true.
Proof.
  induction s as [|a s IH]; simpl.
  - rewrite orb_false_r. split.
    + intros H. now exists EmptyString, EmptyString.
    + intros (pre & post & Hs & H).
      destruct pre; [|discriminate]. simpl in Hs. now subst post.
  - rewrite orb_true_iff, IH. split.
    + intros [H|(pre & post & Hs & H)].
      * now exists EmptyString, (String a s).
      * exists (String a pre), post. simpl. now rewrite Hs.
    + intros (pre & post & Hs & H). destruct pre as [|b pre]; simpl in Hs.
      * left. now subst post.
      * right. inversion Hs; subst. now exists pre, post.
Qed.

(** Searching the literal branches of some terms is looking for one of the
    terms as a substring. *)
Lemma re_search_literals (terms : list string) (s : string) :
  re_search (map literal terms) s = true <->
  exists t, In t terms /\ contains_substring t s.
Proof.
  rewrite re_search_spec. unfold match_any, contains_substring. split.
  - intros (pre & post & Hs & H).
    apply existsb_exists in H. destruct H as (b & Hb & Hm).
    apply in_map_iff in Hb. destruct Hb as (t & <- & Ht).
    apply match_here_literal in Hm. destruct Hm as [post' ->].
    exists t. split; [exact Ht|]. now exists pre, post'.
  - intros (t & Ht & pre & post & ->).
    exists pre, (t ++ post)%string. split; [reflexivity|].
    apply existsb_exists. exists (literal t). split; [now apply in_map|].
    apply match_here_literal. now exists post.
Qed.

Lemma split_on_nonempty (c : ascii) (s : string) : split_on c s <> [].
Proof.
  destruct s as [|a s]; simpl; [discriminate|].
  destruct (Ascii.eqb a c); [discriminate|].
  destruct (split_on c s); discriminate.
Qed.

Lemma brand_terms_nonempty (brand_term : string) : brand_terms brand_term <> [].
Proof.
  unfold brand_terms. intros H. apply map_eq_nil in H.
  exact (split_on_nonempty _ _ H).
Qed.

(** C5, as the code has it. When the text of the brand field is not empty
    and none of its trimmed terms holds a special character of regular
    expressions, the brand filter keeps, in their order, exactly the records
    whose query contains none of the terms as a substring (characters
    compared as they are), and removes the others. *)
Theorem brand_filter_plain_terms (df : list Rec.t) (brand_term : string) :
  brand_term <> EmptyString ->
  Forall plain (brand_terms brand_term) ->
  exists df' keep,
    brand_filter brand_term df = Some df' /\
    df' = filter keep df /\
    (forall r, keep r = false <->
               exists t, In t (brand_terms brand_term) /\
                         contains_substring t (Rec.query r)) /\
    (forall r, In r df' <->
               In r df /\
               ~ exists t, In t (brand_terms brand_term) /\
                           contains_substring t (Rec.query r)).
Proof.
  intros Hne Hplain.
  set (bs := map literal (brand_terms brand_term)).
  assert (Hc : re_compile (brand_pattern brand_term) = Some bs).
  { unfold brand_pattern. apply re_compile_plain;
      [apply brand_terms_nonempty | exact Hplain]. }
  assert (Hkeep : forall r, negb (re_search bs (Rec.query r)) = false <->
                            exists t, In t (brand_terms brand_term) /\
                                      contains_substring t (Rec.query r)).
  { intros r. rewrite negb_false_iff. apply re_search_literals. }
  exists (filter (fun r => negb (re_search bs (Rec.query r))) df),
         (fun r => negb (re_search bs (Rec.query r))).
  split; [|split; [reflexivity|split; [exact Hkeep|]]].
  - unfold brand_filter. destruct brand_term; [congruence|]. now rewrite Hc.
  - intros r. rewrite filter_In, <- Hkeep.
    destruct (negb (re_search bs (Rec.query r))); split; intros [H1 H2];
      split; congruence.
Qed.

Lemma brand_filter_plain_terms_witness :
  exists df' keep,
    brand_filter " brand , tienda" [sample_row "mybrand shoes" "/x" 4 9;
                                    sample_row "other shoes" "/x" 3 8] = Some df' /\
    df' = filter keep [sample_row "mybrand shoes" "/x" 4 9;
                       sample_row "other shoes" "/x" 3 8] /\
    (forall r, keep r = false <->
               exists t, In t (brand_terms " brand , tienda") /\
                         contains_substring t (Rec.query r)) /\
    (forall r, In r df' <->
               In r [sample_row "mybrand shoes" "/x" 4 9;
                     sample_row "other shoes" "/x" 3 8] /\
               ~ exists t, In t (brand_terms " brand , tienda") /\
                           contains_substring t (Rec.query r)).
Proof.
  apply (brand_filter_plain_terms
           [sample_row "mybrand shoes" "/x" 4 9; sample_row "other shoes" "/x" 3 8]
           " brand , tienda").
  - discriminate.
  - unfold plain. repeat constructor.
Defined.

(** C5 fails as stated: the term ["a.c"] is read as a pattern whose dot
    matches any character, so the query ["abc"], which does not contain the
    term, is removed. *)
Lemma brand_term_is_a_pattern :
  brand_terms "a.c" = ["a.c"%string] /\
  ~ contains_substring "a.c" "abc" /\
  brand_filter "a.c" [sample_row "abc" "/x" 4 9] = Some [].
Proof.
  split; [reflexivity|]. split; [|reflexivity].
  intros (pre & post & H).
  destruct pre as [|c1 [|c2 [|c3 [|c4 pre]]]]; simpl in H;
    try (inversion H; fail).
Qed.

(** ** Determinism *)

Section StableSorting.
Context {A : Type} (leb : A -> A -> bool).
Hypothesis leb_total : forall a b, leb a b = true \/ leb b a = true.
Hypothesis leb_trans :
  forall a b c, leb a b = true -> leb b c = true -> leb a c = true.

Lemma leb_refl (a : A) : leb a a = true.
Proof. destruct (leb_total a a); assumption. Qed.

(** Rows of one key are left as they are. *)
Lemma stable_sort_one_key (l : list A) :
  (forall a b, In a l -> In b l -> leb a b = true) -> stable_sort leb l = l.
Proof.
  induction l as [|x l IH]; simpl; intros H; [reflexivity|].
  rewrite IH by (intros a b Ha Hb; apply H; now right).
  apply insert_stable_least. apply Forall_forall. intros y Hy.
  apply H; [now left | now right].
Qed.

Lemma stable_sort_is_stable_sorting (l : list A) :
  stable_sorting leb l (stable_sort leb l).
Proof.
  split; [apply Permutation_sym, stable_sort_perm|].
  split; [now apply stable_sort_sorted|].
  intros x. rewrite filter_stable_sort by assumption.
  apply stable_sort_one_key. intros a b Ha Hb.
  apply filter_In in Ha. apply filter_In in Hb.
  destruct Ha as [_ Ha]. destruct Hb as [_ Hb].
  unfold same_key in *. apply andb_true_iff in Ha. apply andb_true_iff in Hb.
  apply leb_trans with x; [apply Ha | apply Hb].
Qed.

(** Two sorted lists with the same rows, and the same rows of every key in
    the same order, are equal. *)
Lemma sorted_same_classes (l1 l2 : list A) :
  StronglySorted (fun a b => leb a b = true) l1 ->
  StronglySorted (fun a b => leb a b = true) l2 ->
  Permutation l1 l2 ->
  (forall x, filter (same_key leb x) l1 = filter (same_key leb x) l2) ->
  l1 = l2.
Proof.
  revert l2. induction l1 as [|a l1 IH]; intros l2 H1 H2 Hp Hc.
  - now apply Permutation_nil in Hp.
  - destruct l2 as [|b l2].
    + apply Permutation_sym, Permutation_nil in Hp. discriminate.
    + inversion H1 as [|? ? Hs1 Ha]; subst.
      inversion H2 as [|? ? Hs2 Hb]; subst.
      assert (Hab : leb a b = true).
      { assert (Hin : In b (a :: l1)).
        { eapply Permutation_in; [apply Permutation_sym; exact Hp | now left]. }
        destruct Hin as [->|Hin]; [apply leb_refl|].
        exact (proj1 (Forall_forall _ _) Ha b Hin). }
      assert (Hba : leb b a = true).
      { assert (Hin : In a (b :: l2)).
        { eapply Permutation_in; [exact Hp | now left]. }
        destruct Hin as [->|Hin]; [apply leb_refl|].
        exact (proj1 (Forall_forall _ _) Hb a Hin). }
      assert (Heq : a = b).
      { assert (Haa : same_key leb a a = true).
        { unfold same_key. now rewrite leb_refl. }
        assert (Hkab : same_key leb a b = true).
        { unfold same_key. now rewrite Hab, Hba. }
        pose proof (Hc a) as Hca. cbn [filter] in Hca.
        rewrite Haa, Hkab in Hca. now inversion Hca. }
      subst b. f_equal. apply IH; try assumption.
      * now apply Permutation_cons_inv in Hp.
      * intros x. pose proof (Hc x) as Hcx. simpl in Hcx.
        destruct (same_key leb x a); [now inversion Hcx | exact Hcx].
Qed.

(** A list has one stable sorting. *)
Lemma stable_sorting_unique (l l1 l2 : list A) :
  stable_sorting leb l l1 -> stable_sorting leb l l2 -> l1 = l2.
Proof.
  intros (Hp1 & Hs1 & Hc1) (Hp2 & Hs2 & Hc2).
  apply sorted_same_classes; try assumption.
  - apply Permutation_trans with l; [now apply Permutation_sym | exact Hp2].
  - intros x. now rewrite Hc1, Hc2.
Qed.

Lemma stable_sorting_is_stable_sort (l l' : list A) :
  stable_sorting leb l l' -> l' = stable_sort leb l.
Proof.
  intros H. apply (stable_sorting_unique l); [exact H|].
  apply stable_sort_is_stable_sorting.
Qed.
End StableSorting.

(** The function is a run. *)
Lemma get_top_query_run (df : list Rec.t) (m : Metric) (brand_term : string)
      (zero_clicks : pyval) :
  run df m brand_term zero_clicks (get_top_query df m brand_term zero_clicks).
Proof.
  unfold get_top_query. destruct df as [|r df]; [now constructor|].
  destruct (filtered_input brand_term zero_clicks (r :: df)) as [df'|] eqn:Hf.
  - unfold aggregate. eapply run_return; [discriminate | exact Hf | |];
      apply stable_sort_is_stable_sorting;
      first [apply sort_leb_total | apply sort_leb_trans].
  - now constructor.
Qed.

(** Every run ends as the function says. *)
Lemma run_get_top_query (df : list Rec.t) (m : Metric) (brand_term : string)
      (zero_clicks : pyval) (o : outcome) :
  run df m brand_term zero_clicks o -> o = get_top_query df m brand_term zero_clicks.
Proof.
  intros H. destruct H as [He|Hne Hf|df' s out Hne Hf Hs Hout].
  - subst df. reflexivity.
  - unfold get_top_query. rewrite Hf. destruct df; [congruence|reflexivity].
  - rewrite (get_top_query_returns df m brand_term zero_clicks df' Hne Hf).
    apply stable_sorting_is_stable_sort in Hs;
      [|apply sort_leb_total | apply sort_leb_trans].
    apply stable_sorting_is_stable_sort in Hout;
      [|apply sort_leb_total | apply sort_leb_trans].
    subst s out. reflexivity.
Qed.

(** C8. Filter and aggregation are deterministic: on a frame, a metric, a
    brand text and a zero-click value there is a run, and any two runs, with
    whatever stable sorts, end with the same outcome, hence with the same
    rows in the same order. *)
Theorem runs_agree
        (df : list Rec.t) (m : Metric) (brand_term : string) (zero_clicks : pyval) :
  run df m brand_term zero_clicks (get_top_query df m brand_term zero_clicks) /\
  forall o1 o2,
    run df m brand_term zero_clicks o1 ->
    run df m brand_term zero_clicks o2 ->
    o1 = o2.
Proof.
  split; [apply get_top_query_run|].
  intros o1 o2 H1 H2.
  rewrite (run_get_top_query _ _ _ _ _ H1), (run_get_top_query _ _ _ _ _ H2).
  reflexivity.
Qed.


(** ** The routine on sample frames *)

(** Two queries of ["/x"] and one of ["/y"], ranked by clicks. *)
Example sample_by_clicks :
  get_top_query sample_frame MClicks "" (PyStr "No") =
  Returned (mkTable output_columns
              [Ranked.mk "b" "b" 10 40 0.5%float 2 "/x";
               Ranked.mk "b" "a" 5 90 0.5%float 2 "/x";
               Ranked.mk "c" "c" 1 7 0.5%float 1 "/y"]).
Proof. reflexivity. Qed.

(** Ranked by impressions, the top query of ["/x"] is the other one. *)
Example sample_by_impressions :
  get_top_query sample_frame MImpressions "" (PyStr "No") =
  Returned (mkTable output_columns
              [Ranked.mk "a" "a" 5 90 0.5%float 2 "/x";
               Ranked.mk "a" "b" 10 40 0.5%float 2 "/x";
               Ranked.mk "c" "c" 1 7 0.5%float 1 "/y"]).
Proof. reflexivity. Qed.

(** The page without clicks disappears with ["Si"] and stays with ["No"]. *)
Example sample_zero_clicks :
  get_top_query sample_frame_zero MClicks "" (PyStr "Si") =
  get_top_query sample_frame MClicks "" (PyStr "No") /\
  get_top_query sample_frame_zero MClicks "" (PyStr "No") =
  Returned (mkTable output_columns
              [Ranked.mk "b" "b" 10 40 0.5%float 2 "/x";
               Ranked.mk "b" "a" 5 90 0.5%float 2 "/x";
               Ranked.mk "c" "c" 1 7 0.5%float 1 "/y";
               Ranked.mk "d" "d" 0 3 0.5%float 1 "/z"]).
Proof. split; reflexivity. Qed.

(** Of two queries with the same clicks, the one that comes first in the
    frame is the top query, and it stays first in the output. *)
Example sample_tie :
  get_top_query [sample_row "late" "/x" 3 1; sample_row "u" "/x" 7 1;
                 sample_row "v" "/x" 7 1] MClicks "" (PyStr "No") =
  Returned (mkTable output_columns
              [Ranked.mk "u" "u" 7 1 0.5%float 3 "/x";
               Ranked.mk "u" "v" 7 1 0.5%float 3 "/x";
               Ranked.mk "u" "late" 3 1 0.5%float 3 "/x"]).
Proof. reflexivity. Qed.

(** Brand terms are trimmed and searched inside the queries. *)
Example sample_brand :
  get_top_query [sample_row "mybrand shoes" "/x" 5 1; sample_row "other shoes" "/x" 3 1]
                MClicks " brand " (PyStr "No") =
  Returned (mkTable output_columns
              [Ranked.mk "other shoes" "other shoes" 3 1 0.5%float 1 "/x"]).
Proof. reflexivity. Qed.

(** An empty frame from the record source raises. *)
Example sample_empty_source :
  get_top_query [] MClicks "brand" (PyStr "Si") = Raised "No hay Dataframe".
Proof. reflexivity. Qed.


(** * Further properties of [get_top_query] *)

Lemma get_top_query_returned_inv (df : list Rec.t) (m : Metric) (brand_term : string)
      (zero_clicks : pyval) (t : Table) :
  get_top_query df m brand_term zero_clicks = Returned t ->
  df <> [] /\
  exists df', filtered_input brand_term zero_clicks df = Some df' /\ t = aggregate m df'.
Proof.
  unfold get_top_query. destruct df as [|r df]; [discriminate|].
  destruct (filtered_input brand_term zero_clicks (r :: df)) as [df'|];
    [|discriminate].
  intros H. inversion H. split; [discriminate|]. now exists df'.
Qed.

Lemma record_of_project (r : Rec.t) (top : string) (count : Z) :
  record_of (project r top count) = r.
Proof. destruct r. reflexivity. Qed.

Lemma filter_map_comm {A B : Type} (f : A -> B) (p : B -> bool) (l : list A) :
  filter p (map f l) = map f (filter (fun a => p (f a)) l).
Proof.
  induction l as [|a l IH]; simpl; [reflexivity|].
  destruct (p (f a)); simpl; now rewrite IH.
Qed.

(** Rows of the same sort keys agree on both columns. *)
Lemma same_key_sort_leb {A : Type} (k1 : A -> string) (k2 : A -> Z) (x y : A) :
  same_key (sort_leb k1 k2) x y = true -> k1 x = k1 y /\ k2 x = k2 y.
Proof.
  unfold same_key. rewrite andb_true_iff, !sort_leb_spec.
  intros [[Hlt|[He Hle]] [Hlt'|[He' Hle']]].
  - pose proof (string_compare_lt_trans _ _ _ Hlt Hlt') as Hc.
    rewrite string_compare_refl in Hc. discriminate.
  - rewrite He', string_compare_refl in Hlt. discriminate.
  - rewrite He, string_compare_refl in Hlt'. discriminate.
  - split; [exact He|lia].
Qed.

(** Sorting the report's records by page and metric gives the page-sorted
    frame of the first run: the output order keeps rows of one page and one
    metric value in the order they had there. *)
Lemma sort_values_of_report (m : Metric) (df : list Rec.t) :
  sort_values Rec.page (rec_metric m) (map record_of (rows (aggregate m df))) =
  sort_values Rec.page (rec_metric m) df.
Proof.
  pose proof (stable_sort_is_stable_sorting (sort_leb Rec.page (rec_metric m))
                (sort_leb_total _ _) (sort_leb_trans _ _) df)
    as (Hp & Hsorted & Hclasses).
  unfold sort_values at 1. symmetry.
  apply stable_sorting_is_stable_sort; [apply sort_leb_total | apply sort_leb_trans |].
  rewrite aggregate_rows. cbv zeta. unfold sort_values.
  set (leb1 := sort_leb Rec.page (rec_metric m)) in *.
  set (leb2 := sort_leb Ranked.top_query (ranked_metric m)).
  set (s := stable_sort leb1 df) in *.
  set (ann := fun r : Rec.t => project r _ _).
  assert (Hid : forall l, map record_of (map ann l) = l).
  { intros l. rewrite map_map. rewrite <- (map_id l) at 2.
    apply map_ext. intros r. unfold ann. apply record_of_project. }
  split; [|split; [exact Hsorted|]].
  - apply Permutation_trans with (map record_of (map ann s)).
    + apply Permutation_map, stable_sort_perm.
    + rewrite Hid. apply Permutation_refl.
  - intros x.
    rewrite filter_map_comm.
    rewrite (filter_stable_sort leb2 (sort_leb_total _ _) (sort_leb_trans _ _)).
    rewrite filter_map_comm.
    rewrite stable_sort_one_key.
    + rewrite Hid. apply filter_ext. intros r. unfold ann.
      now rewrite record_of_project.
    + intros a b Ha Hb.
      apply in_map_iff in Ha. destruct Ha as (ra & <- & Ha).
      apply in_map_iff in Hb. destruct Hb as (rb & <- & Hb).
      apply filter_In in Ha. destruct Ha as [Hina Ha].
      apply filter_In in Hb. destruct Hb as [_ Hb].
      unfold ann in Ha, Hb. rewrite record_of_project in Ha, Hb.
      apply same_key_sort_leb in Ha. apply same_key_sort_leb in Hb.
      destruct Ha as [Hpa Hma]. destruct Hb as [Hpb Hmb].
      pose proof (group_of_nonempty Rec.page s ra Hina) as Hg.
      unfold leb2. apply sort_leb_spec. right.
      unfold ann. simpl. rewrite <- Hpa, <- Hpb. rewrite <- Hpa in Hg.
      destruct (group_of Rec.page s (Rec.page x)); [congruence|].
      split; [reflexivity|].
      destruct m; simpl in *; lia.
Qed.

Lemma filter_all {A : Type} (p : A -> bool) (l : list A) :
  (forall x, In x l -> p x = true) -> filter p l = l.
Proof.
  induction l as [|a l IH]; simpl; intros H; [reflexivity|].
  rewrite (H a (or_introl eq_refl)), IH; [reflexivity|].
  intros x Hx. apply H. now right.
Qed.

(** Records that passed the filters pass them again, all of them. *)
Lemma filtered_input_fixed (brand_term : string) (zero_clicks : pyval)
      (df df' l : list Rec.t) :
  filtered_input brand_term zero_clicks df = Some df' ->
  (forall r, In r l -> In r df') ->
  filtered_input brand_term zero_clicks l = Some l.
Proof.
  unfold filtered_input, brand_filter, zero_clicks_filter. intros Hf Hl.
  assert (Hz : forall d : list Rec.t,
             (forall r, In r l ->
                        In r (if py_eq_str zero_clicks "Si"
                              then filter (fun r => 0 <? Rec.clicks r) d else d)) ->
             (if py_eq_str zero_clicks "Si"
              then filter (fun r => 0 <? Rec.clicks r) l else l) = l).
  { intros d Hd. destruct (py_eq_str zero_clicks "Si"); [|reflexivity].
    apply filter_all. intros r Hr. apply Hd in Hr. now apply filter_In in Hr. }
  destruct brand_term as [|a b].
  - simpl in *. inversion Hf as [Hdf']. f_equal.
    apply (Hz df). rewrite Hdf'. exact Hl.
  - destruct (re_compile (brand_pattern (String a b))) as [bs|]; [|discriminate].
    simpl in *. inversion Hf as [Hdf'].
    assert (Hb : filter (fun r => negb (re_search bs (Rec.query r))) l = l).
    { apply filter_all. intros r Hr. apply Hl in Hr. rewrite <- Hdf' in Hr.
      destruct (py_eq_str zero_clicks "Si");
        [apply filter_In in Hr; destruct Hr as [Hr _]|];
        now apply filter_In in Hr. }
    rewrite Hb. f_equal.
    apply (Hz (filter (fun r => negb (re_search bs (Rec.query r))) df)).
    rewrite Hdf'. exact Hl.
Qed.

Lemma record_of_produced (o : Ranked.t) (r : Rec.t) :
  produced_from o r -> record_of o = r.
Proof.
  intros (Hq & Hp & Hc & Hi & Hx). destruct r. unfold record_of. simpl in *.
  now rewrite Hq, Hp, Hc, Hi, Hx.
Qed.

Lemma aggregate_of_report (m : Metric) (df : list Rec.t) :
  aggregate m (map record_of (rows (aggregate m df))) = aggregate m df.
Proof.
  unfold aggregate at 1 3. cbv zeta. now rewrite sort_values_of_report.
Qed.

(** X1. Taking the rows of a returned report as records and running the
    routine on them with the same metric and the same filters returns the
    same report, row for row. *)
Theorem report_is_fixed_point
        (df : list Rec.t) (m : Metric) (brand_term : string) (zero_clicks : pyval)
        (t : Table) :
  get_top_query df m brand_term zero_clicks = Returned t ->
  rows t <> [] ->
  get_top_query (map record_of (rows t)) m brand_term zero_clicks = Returned t.
Proof.
  intros Hret Hne.
  apply get_top_query_returned_inv in Hret.
  destruct Hret as (_ & df' & Hf & ->).
  rewrite (get_top_query_returns _ m brand_term zero_clicks
             (map record_of (rows (aggregate m df')))).
  - now rewrite aggregate_of_report.
  - intros H. apply map_eq_nil in H. contradiction.
  - apply (filtered_input_fixed brand_term zero_clicks df df'); [exact Hf|].
    intros r Hr. apply in_map_iff in Hr. destruct Hr as (o & <- & Ho).
    destruct (aggregate_row_inv m df' o Ho) as (r & g & Hr & Hp & _).
    now rewrite (record_of_produced o r Hp).
Qed.

Lemma report_is_fixed_point_witness :
  get_top_query
    (map record_of
         [Ranked.mk "b" "b" 10 40 0.5%float 2 "/x";
          Ranked.mk "b" "a" 5 90 0.5%float 2 "/x"])
    MClicks "c" (PyStr "Si") =
  Returned (mkTable output_columns
              [Ranked.mk "b" "b" 10 40 0.5%float 2 "/x";
               Ranked.mk "b" "a" 5 90 0.5%float 2 "/x"]).
Proof.
  apply (report_is_fixed_point sample_frame_zero MClicks "c" (PyStr "Si")
           (mkTable output_columns
              [Ranked.mk "b" "b" 10 40 0.5%float 2 "/x";
               Ranked.mk "b" "a" 5 90 0.5%float 2 "/x"])).
  - reflexivity.
  - discriminate.
Defined.

Lemma brand_filter_length (brand_term : string) (df df_b : list Rec.t) :
  brand_filter brand_term df = Some df_b ->
  (List.length df_b <= List.length df)%nat.
Proof.
  unfold brand_filter. destruct brand_term as [|a b].
  - intros H. inversion H. apply Nat.le_refl.
  - destruct (re_compile (brand_pattern (String a b))); [|discriminate].
    intros H. inversion H. apply filter_length_le.
Qed.

Lemma zero_clicks_filter_length (zero_clicks : pyval) (df : list Rec.t) :
  (List.length (zero_clicks_filter zero_clicks df) <= List.length df)%nat.
Proof.
  unfold zero_clicks_filter. destruct (py_eq_str zero_clicks "Si");
    [apply filter_length_le | apply Nat.le_refl].
Qed.

Lemma aggregate_length (m : Metric) (df : list Rec.t) :
  List.length (rows (aggregate m df)) = List.length df.
Proof.
  destruct (aggregate_produced m df) as (l & Hl & HF).
  rewrite (Forall2_length HF). now apply Permutation_length.
Qed.

(** X2. A returned report never has more rows than the record source
    delivered, and with [zero_clicks] at ["Si"] it never has more rows than
    with any other value of [zero_clicks]. *)
Theorem report_size_bounded
        (df : list Rec.t) (m : Metric) (brand_term : string) (zero_clicks : pyval)
        (t t_si : Table) :
  get_top_query df m brand_term zero_clicks = Returned t ->
  get_top_query df m brand_term (PyStr "Si") = Returned t_si ->
  (List.length (rows t_si) <= List.length (rows t) <= List.length df)%nat.
Proof.
  intros H Hsi.
  apply get_top_query_returned_inv in H. destruct H as (_ & df' & Hf & ->).
  apply get_top_query_returned_inv in Hsi. destruct Hsi as (_ & df'' & Hf' & ->).
  rewrite !aggregate_length.
  unfold filtered_input in Hf, Hf'.
  destruct (brand_filter brand_term df) as [df_b|] eqn:Hb; [|discriminate].
  simpl in Hf, Hf'. inversion Hf. inversion Hf'. subst df' df''.
  pose proof (brand_filter_length _ _ _ Hb) as Hlen.
  split.
  - unfold zero_clicks_filter. simpl.
    destruct (py_eq_str zero_clicks "Si"); [apply Nat.le_refl | apply filter_length_le].
  - eapply Nat.le_trans; [apply zero_clicks_filter_length | exact Hlen].
Qed.

Lemma report_size_bounded_witness :
  (List.length (rows (aggregate MClicks sample_frame)) <=
   List.length (rows (aggregate MClicks sample_frame_zero)) <=
   List.length sample_frame_zero)%nat.
Proof.
  apply (report_size_bounded sample_frame_zero MClicks "" (PyStr "No")
           (aggregate MClicks sample_frame_zero) (aggregate MClicks sample_frame)).
  - reflexivity.
  - reflexivity.
Defined.

(** X3. A brand text with an empty term (a comma at an end, two commas in a
    row, or blanks only) removes every record: when the terms hold no
    special character, the routine returns the report without rows,
    whatever the frame. *)
Theorem empty_brand_term_removes_everything
        (df : list Rec.t) (m : Metric) (brand_term : string) (zero_clicks : pyval) :
  df <> [] ->
  brand_term <> EmptyString ->
  Forall plain (brand_terms brand_term) ->
  In EmptyString (brand_terms brand_term) ->
  brand_filter brand_term df = Some [] /\
  get_top_query df m brand_term zero_clicks = Returned (mkTable output_columns []).
Proof.
  intros Hne Hb Hplain Hin.
  assert (Hc : re_compile (brand_pattern brand_term) =
               Some (map literal (brand_terms brand_term))).
  { unfold brand_pattern. apply re_compile_plain;
      [apply brand_terms_nonempty | exact Hplain]. }
  assert (Hbf : brand_filter brand_term df = Some []).
  { unfold brand_filter. destruct brand_term as [|a b]; [congruence|].
    rewrite Hc. f_equal. clear Hne.
    induction df as [|r df IH]; [reflexivity|]. simpl.
    assert (Hr : re_search (map literal (brand_terms (String a b))) (Rec.query r) = true).
    { apply re_search_literals. exists EmptyString. split; [exact Hin|].
      now exists EmptyString, (Rec.query r). }
    rewrite Hr. exact IH. }
  split; [exact Hbf|].
  rewrite (get_top_query_returns df m brand_term zero_clicks []); [reflexivity|exact Hne|].
  unfold filtered_input. rewrite Hbf. simpl.
  unfold zero_clicks_filter. now destruct (py_eq_str zero_clicks "Si").
Qed.

Lemma empty_brand_term_removes_everything_witness :
  brand_filter "a," sample_frame = Some [] /\
  get_top_query sample_frame MClicks "a," (PyStr "No") =
  Returned (mkTable output_columns []).
Proof.
  apply (empty_brand_term_removes_everything sample_frame MClicks "a," (PyStr "No")).
  - discriminate.
  - discriminate.
  - unfold plain. repeat constructor.
  - simpl. auto.
Defined.

(** X4. In a returned report the rows of one page agree on [top_query] and
    on [q_pages_top_query], and that count is at least one. *)
Theorem page_rows_agree
        (df : list Rec.t) (m : Metric) (brand_term : string) (zero_clicks : pyval)
        (t : Table) (o1 o2 : Ranked.t) :
  get_top_query df m brand_term zero_clicks = Returned t ->
  In o1 (rows t) ->
  In o2 (rows t) ->
  Ranked.page o1 = Ranked.page o2 ->
  Ranked.top_query o1 = Ranked.top_query o2 /\
  Ranked.q_pages_top_query o1 = Ranked.q_pages_top_query o2 /\
  1 <= Ranked.q_pages_top_query o1.
Proof.
  intros Hret H1 H2 Hpage.
  apply get_top_query_returned_inv in Hret. destruct Hret as (_ & df' & _ & ->).
  destruct (aggregate_row_inv m df' o1 H1) as (r1 & g1 & Hr1 & Hp1 & Hg1 & Ht1 & Hc1).
  destruct (aggregate_row_inv m df' o2 H2) as (r2 & g2 & Hr2 & Hp2 & Hg2 & Ht2 & Hc2).
  destruct Hp1 as (_ & Hpg1 & _). destruct Hp2 as (_ & Hpg2 & _).
  assert (Hrp : Rec.page r1 = Rec.page r2) by congruence.
  rewrite Hrp in Hg1. rewrite Hg1 in Hg2. subst g2.
  assert (Hlen : (1 <= List.length g1)%nat).
  { rewrite <- Hg1. unfold sort_values. rewrite stable_sort_length.
    pose proof (group_of_nonempty Rec.page df' r2 Hr2) as Hne.
    destruct (group_of Rec.page df' (Rec.page r2)); [congruence|]. simpl. lia. }
  destruct g1 as [|r0 g1]; [simpl in Hlen; lia|].
  split; [congruence|]. split; [congruence|].
  rewrite Hc1. simpl List.length. lia.
Qed.

Lemma page_rows_agree_witness :
  Ranked.top_query (Ranked.mk "b" "b" 10 40 0.5%float 2 "/x") =
  Ranked.top_query (Ranked.mk "b" "a" 5 90 0.5%float 2 "/x") /\
  Ranked.q_pages_top_query (Ranked.mk "b" "b" 10 40 0.5%float 2 "/x") =
  Ranked.q_pages_top_query (Ranked.mk "b" "a" 5 90 0.5%float 2 "/x") /\
  1 <= Ranked.q_pages_top_query (Ranked.mk "b" "b" 10 40 0.5%float 2 "/x").
Proof.
  apply (page_rows_agree sample_frame MClicks "" (PyStr "No")
           (aggregate MClicks sample_frame)).
  - reflexivity.
  - simpl. auto.
  - simpl. auto.
  - reflexivity.
Defined.


(** * Date ranges *)

Lemma range_map_bounds (selection : string) :
  0 <= dict_get_default selection range_map 0 <= 365.
Proof.
  unfold range_map. simpl.
  repeat match goal with
         | |- context [String.eqb ?a ?b] => destruct (String.eqb a b)
         end; lia.
Qed.

Lemma range_map_option (selection : string) :
  In selection DATE_RANGE_OPTIONS -> selection <> choose_dates ->
  7 <= dict_get_default selection range_map 0.
Proof.
  intros Hin Hne. simpl in Hin.
  repeat (destruct Hin as [<-|Hin]; [vm_compute; try discriminate; congruence|]).
  contradiction.
Qed.

Lemma range_map_unknown (selection : string) :
  ~ In selection DATE_RANGE_OPTIONS -> dict_get_default selection range_map 0 = 0.
Proof.
  intros Hnot. unfold range_map. simpl.
  repeat match goal with
         | |- context [String.eqb selection ?b] =>
             destruct (String.eqb_spec selection b) as [He|_];
             [exfalso; apply Hnot; rewrite He; simpl; tauto|]
         end.
  reflexivity.
Qed.

Lemma date_minus_days_some (d n : Z) :
  1 <= d - n <= date_max -> date_minus_days d n = Some (d - n).
Proof.
  intros [H1 H2]. unfold date_minus_days. cbv zeta.
  apply Z.leb_le in H1. apply Z.leb_le in H2. now rewrite H1, H2.
Qed.

Lemma date_minus_days_inv (d n o : Z) :
  date_minus_days d n = Some o -> o = d - n.
Proof.
  unfold date_minus_days. cbv zeta.
  destruct ((1 <=? d - n) && (d - n <=? date_max)); [|discriminate].
  intros H. now inversion H.
Qed.

(** X5. A returned range is never inverted by the routine itself: it ends
    today and starts at most 365 days earlier, unless the selection is
    ['Elegir fechas'] and both custom dates are given, which are then
    returned as they are, in whatever order they come. *)
Theorem date_range_not_inverted
        (today : Z) (selection : string) (custom_start custom_end : option Z)
        (s e : Z) :
  calc_date_range today selection custom_start custom_end = Some (s, e) ->
  (e = today /\ today - 365 <= s <= e) \/
  (selection = choose_dates /\ custom_start = Some s /\ custom_end = Some e).
Proof.
  unfold calc_date_range.
  destruct (String.eqb_spec selection choose_dates) as [Hsel|Hsel].
  - destruct custom_start as [cs|]; [destruct custom_end as [ce|]|].
    + intros H. inversion H. subst. right. auto.
    + destruct (date_minus_days today 7) as [o|] eqn:Ho; [|discriminate].
      apply date_minus_days_inv in Ho. intros H. inversion H. left. lia.
    + destruct (date_minus_days today 7) as [o|] eqn:Ho; [|discriminate].
      apply date_minus_days_inv in Ho. intros H. inversion H. left. lia.
  - pose proof (range_map_bounds selection) as Hb.
    destruct (date_minus_days today (dict_get_default selection range_map 0))
      as [o|] eqn:Ho; [|discriminate].
    apply date_minus_days_inv in Ho. intros H. inversion H. left. lia.
Qed.

Lemma date_range_not_inverted_witness :
  (738000 = 739000 /\ 739000 - 365 <= 739100 <= 738000) \/
  (choose_dates = choose_dates /\ Some 739100 = Some 739100 /\ Some 738000 = Some 738000).
Proof.
  apply (date_range_not_inverted 739000 choose_dates (Some 739100) (Some 738000)).
  reflexivity.
Defined.

(** X6. For a selection other than ['Elegir fechas'] the custom dates are
    not read and the range ends today: it starts 7 to 365 days earlier when
    the selection is one of the labels offered by the selector, and it is
    the single day today, without an error, for any other text. *)
Theorem date_range_of_selection
        (today : Z) (selection : string) (custom_start custom_end : option Z) :
  366 <= today <= date_max ->
  selection <> choose_dates ->
  exists n,
    calc_date_range today selection custom_start custom_end = Some (today - n, today) /\
    (In selection DATE_RANGE_OPTIONS -> 7 <= n <= 365) /\
    (~ In selection DATE_RANGE_OPTIONS -> n = 0).
Proof.
  intros Htoday Hsel.
  exists (dict_get_default selection range_map 0).
  pose proof (range_map_bounds selection) as Hb.
  split; [|split].
  - unfold calc_date_range.
    destruct (String.eqb_spec selection choose_dates) as [He|_]; [contradiction|].
    rewrite date_minus_days_some; [reflexivity|]. lia.
  - intros Hin. pose proof (range_map_option selection Hin Hsel). lia.
  - apply range_map_unknown.
Qed.

Lemma date_range_of_selection_witness :
  exists n,
    calc_date_range 739000 last_3_months (Some 5) None = Some (739000 - n, 739000) /\
    (In last_3_months DATE_RANGE_OPTIONS -> 7 <= n <= 365) /\
    (~ In last_3_months DATE_RANGE_OPTIONS -> n = 0).
Proof.
  apply (date_range_of_selection 739000 last_3_months (Some 5) None).
  - unfold date_max. lia.
  - discriminate.
Defined.


(** * Property list, selectors and record source *)

Lemma map_raise_Forall2 {A B : Type} (f : A -> option B) (l : list A) (l' : list B) :
  map_raise f l = Some l' <-> Forall2 (fun x y => f x = Some y) l l'.
Proof.
  revert l'. induction l as [|x l IH]; intros l'; simpl.
  - split.
    + intros H. inversion H. constructor.
    + intros H. inversion H. reflexivity.
  - split.
    + destruct (f x) as [y|] eqn:Hx; [|discriminate].
      destruct (map_raise f l) as [ys|]; [|discriminate].
      simpl. intros H. inversion H. constructor; [exact Hx|]. now apply IH.
    + intros H. inversion H as [|? y ? ys Hx Hl]; subst.
      rewrite Hx. apply IH in Hl. now rewrite Hl.
Qed.

(** X7. When [list_gsc_properties] returns, its list is never empty: it is
    the one message ["No se encontraron propiedades"] when the response
    has no entry, and otherwise the ['siteUrl'] of every entry, in order. *)
Theorem properties_or_message
        (site_entry : option (list json_object)) (props : list string) :
  list_gsc_properties site_entry = Some props ->
  props <> [] /\
  match site_entry with
  | None | Some [] => props = [no_properties]
  | Some entries =>
      Forall2 (fun site url => dict_get "siteUrl" site = Some url) entries props
  end.
Proof.
  unfold list_gsc_properties.
  destruct site_entry as [[|site entries]|]; simpl.
  - intros H. inversion H. split; [discriminate|reflexivity].
  - destruct (dict_get "siteUrl" site) as [url|] eqn:Hu; [|discriminate].
    destruct (map_raise (dict_get "siteUrl") entries) as [urls|] eqn:Hm;
      [|discriminate].
    simpl. intros H. inversion H. split; [discriminate|].
    constructor; [exact Hu|]. now apply map_raise_Forall2.
  - intros H. inversion H. split; [discriminate|reflexivity].
Qed.

Lemma properties_or_message_witness :
  ["sc-domain:example.com"; "https://www.example.org/"]%string <> [] /\
  Forall2 (fun site url => dict_get "siteUrl" site = Some url)
          [[("siteUrl", "sc-domain:example.com"); ("permissionLevel", "siteOwner")];
           [("permissionLevel", "siteFullUser"); ("siteUrl", "https://www.example.org/")]]%string
          ["sc-domain:example.com"; "https://www.example.org/"]%string.
Proof.
  apply (properties_or_message
           (Some [[("siteUrl", "sc-domain:example.com"); ("permissionLevel", "siteOwner")];
                  [("permissionLevel", "siteFullUser");
                   ("siteUrl", "https://www.example.org/")]]%string)).
  reflexivity.
Defined.

Lemma list_index_mem (x : string) (l : list string) :
  list_mem x l = true ->
  exists i, list_index x l = Some i /\ nth_error l i = Some x /\
            forall j, (j < i)%nat -> nth_error l j <> Some x.
Proof.
  unfold list_mem. induction l as [|y l IH]; simpl; [discriminate|].
  destruct (String.eqb_spec y x) as [->|Hne].
  - intros _. exists 0%nat. repeat split. intros j Hj. lia.
  - simpl. intros H. destruct (IH H) as (i & Hi & Hn & Hfirst).
    exists (S i). rewrite Hi. repeat split; [exact Hn|].
    intros [|j] Hj; simpl.
    + intros Hc. inversion Hc. contradiction.
    + apply Hfirst. lia.
Qed.

Lemma list_mem_In (x : string) (l : list string) : list_mem x l = true <-> In x l.
Proof.
  unfold list_mem. rewrite existsb_exists. split.
  - intros (y & Hy & He). apply String.eqb_eq in He. now subst.
  - intros H. exists x. split; [exact H|apply String.eqb_refl].
Qed.

Lemma selector_index_in_range (selected : option string) (options : list string) :
  options <> [] ->
  exists i, selector_index selected options = Some i /\ (i < List.length options)%nat.
Proof.
  intros Hne.
  assert (H0 : (0 < List.length options)%nat).
  { destruct options; [congruence|simpl; lia]. }
  unfold selector_index. destruct selected as [x|]; [|now exists 0%nat].
  destruct (list_mem x options) eqn:Hm; [|now exists 0%nat].
  destruct (list_index_mem x options Hm) as (i & Hi & Hn & _).
  exists i. split; [exact Hi|]. apply nth_error_Some. congruence.
Qed.

(** X8. On a list of options that is not empty, the index computed for a
    selector is always a position of the list: the first position of the
    remembered value when that value is one of the options, and position 0
    when it is not or when nothing is remembered. *)
Theorem selector_index_valid (selected : option string) (options : list string) :
  options <> [] ->
  exists i,
    selector_index selected options = Some i /\
    (i < List.length options)%nat /\
    (forall x, selected = Some x -> In x options ->
               nth_error options i = Some x /\
               forall j, (j < i)%nat -> nth_error options j <> Some x) /\
    ((forall x, selected = Some x -> ~ In x options) -> i = 0%nat).
Proof.
  intros Hne.
  assert (H0 : (0 < List.length options)%nat).
  { destruct options; [congruence|simpl; lia]. }
  unfold selector_index. destruct selected as [x|].
  - destruct (list_mem x options) eqn:Hm.
    + destruct (list_index_mem x options Hm) as (i & Hi & Hn & Hfirst).
      exists i. split; [exact Hi|]. split; [|split].
      * apply nth_error_Some. congruence.
      * intros y Hy _. inversion Hy. subst y. now split.
      * intros Hnot. exfalso. apply (Hnot x eq_refl). now apply list_mem_In.
    + exists 0%nat. split; [reflexivity|]. split; [exact H0|]. split.
      * intros y Hy Hin. exfalso. inversion Hy. subst y.
        apply list_mem_In in Hin. congruence.
      * intros _. reflexivity.
  - exists 0%nat. split; [reflexivity|]. split; [exact H0|].
    split; [intros y Hy; discriminate | reflexivity].
Qed.

Lemma selector_index_valid_witness :
  exists i,
    selector_index (Some "mobile"%string) DEVICE_OPTIONS = Some i /\
    (i < List.length DEVICE_OPTIONS)%nat /\
    (forall x, Some "mobile"%string = Some x -> In x DEVICE_OPTIONS ->
               nth_error DEVICE_OPTIONS i = Some x /\
               forall j, (j < i)%nat -> nth_error DEVICE_OPTIONS j <> Some x) /\
    ((forall x, Some "mobile"%string = Some x -> ~ In x DEVICE_OPTIONS) -> i = 0%nat).
Proof.
  apply (selector_index_valid (Some "mobile"%string) DEVICE_OPTIONS).
  discriminate.
Defined.

(** X9. Whatever the response and whatever property the session remembers,
    the index handed to the property selector is a position of the list
    that [list_gsc_properties] returned; with no entry in the response it is
    the position of the message. *)
Theorem property_selector_index_valid
        (site_entry : option (list json_object)) (props : list string)
        (selected : option string) :
  list_gsc_properties site_entry = Some props ->
  exists i url,
    selector_index selected props = Some i /\
    nth_error props i = Some url /\
    ((site_entry = None \/ site_entry = Some []) -> url = no_properties).
Proof.
  intros Hl.
  assert (Hne : props <> []).
  { unfold list_gsc_properties in Hl.
    destruct (map_raise _ _) as [[|u us]|]; inversion Hl; discriminate. }
  destruct (selector_index_in_range selected props Hne) as (i & Hi & Hlt).
  destruct (nth_error props i) as [url|] eqn:Hn.
  - exists i, url. split; [exact Hi|]. split; [exact Hn|].
    intros He.
    assert (Hp : props = [no_properties]).
    { destruct He as [->| ->]; simpl in Hl; now inversion Hl. }
    subst props. destruct i as [|i]; simpl in Hn.
    + now inversion Hn.
    + simpl in Hlt. lia.
  - apply nth_error_None in Hn. lia.
Qed.

Lemma property_selector_index_valid_witness :
  exists i url,
    selector_index (Some "https://gone.example/"%string) [no_properties] = Some i /\
    nth_error [no_properties] i = Some url /\
    ((@None (list json_object) = None \/ @None (list json_object) = Some []) ->
     url = no_properties).
Proof.
  apply (property_selector_index_valid None [no_properties]
           (Some "https://gone.example/"%string)).
  reflexivity.
Defined.

(** X10. Whatever goes wrong in the record source, the caller of
    [get_top_query] sees the same exception: the call raises
    ["No hay Dataframe"] exactly when the query to the API raised or
    returned a frame without rows; a frame with rows is passed on whole. *)
Theorem source_failure_is_no_dataframe
        (r : api_result) (m : Metric) (brand_term : string) (zero_clicks : pyval) :
  (get_top_query (fetch_query_page r) m brand_term zero_clicks =
   Raised "No hay Dataframe" <->
   (exists e, r = ApiError e) \/ r = ApiFrame []) /\
  (forall df, r = ApiFrame df -> df <> [] ->
              get_top_query (fetch_query_page r) m brand_term zero_clicks =
              get_top_query df m brand_term zero_clicks).
Proof.
  split.
  - destruct r as [[|row df]|e]; simpl.
    + split; [intros _; now right | reflexivity].
    + destruct (filtered_input brand_term zero_clicks (row :: df)); split;
        try discriminate; intros [[e He]|He]; discriminate.
    + split; [intros _; left; now exists e | reflexivity].
  - intros df -> Hne. destruct df; [congruence|reflexivity].
Qed.


(** * The domain in a file name *)

Lemma strip_prefix_inv (p s r : string) :
  strip_prefix p s = Some r -> s = (p ++ r)%string.
Proof.
  revert s. induction p as [|a p IH]; intros s; simpl.
  - intros H. now inversion H.
  - destruct s as [|b s]; [discriminate|].
    destruct (Ascii.eqb_spec a b) as [->|_]; [|discriminate].
    intros H. now rewrite (IH s H).
Qed.

(** A successful repetition took some run of the class, not empty, and the
    continuation accepted it. *)
Lemma one_or_more_inv {R : Type} (c : ascii -> bool) (s : string)
      (k : string -> string -> option R) (r : R) :
  one_or_more c s k = Some r ->
  exists g rest,
    s = (g ++ rest)%string /\ g <> EmptyString /\ all_chars c g /\ k g rest = Some r.
Proof.
  revert k. induction s as [|a s IH]; intros k; simpl; [discriminate|].
  destruct (c a) eqn:Hc; [|discriminate].
  destruct (one_or_more c s (fun g rest => k (String a g) rest)) as [r'|] eqn:Hm.
  - intros H. inversion H. subst r'.
    destruct (IH _ Hm) as (g & rest & Hs & _ & Hg & Hk).
    exists (String a g), rest. simpl. rewrite Hs.
    split; [reflexivity|]. split; [discriminate|].
    split; [now constructor | exact Hk].
  - intros H. exists (String a EmptyString), s. simpl.
    split; [reflexivity|]. split; [discriminate|].
    split; [now repeat constructor | exact H].
Qed.

(** The repetition fails when the continuation refuses every run. *)
Lemma one_or_more_none {R : Type} (c : ascii -> bool) (s : string)
      (k : string -> string -> option R) :
  (forall g rest, g <> EmptyString -> s = (g ++ rest)%string -> all_chars c g ->
                  k g rest = None) ->
  one_or_more c s k = None.
Proof.
  revert k. induction s as [|a s IH]; intros k H; simpl; [reflexivity|].
  destruct (c a) eqn:Hc; [|reflexivity].
  rewrite IH.
  - apply H; [discriminate | reflexivity | now repeat constructor].
  - intros g rest Hg Hs Hall. apply H; [discriminate | simpl; now rewrite Hs |].
    now constructor.
Qed.

(** The repetition takes the run [a] when no longer run is accepted. *)
Lemma one_or_more_longest {R : Type} (c : ascii -> bool) (a t : string)
      (k : string -> string -> option R) (v : R) :
  a <> EmptyString ->
  all_chars c a ->
  one_or_more c t (fun g r => k (a ++ g)%string r) = None ->
  k a t = Some v ->
  one_or_more c (a ++ t)%string k = Some v.
Proof.
  revert k. induction a as [|x a IH]; intros k Hne Hall Hlong Hk; [congruence|].
  inversion Hall as [|? ? Hx Ha]; subst. simpl. rewrite Hx.
  destruct a as [|y a].
  - simpl in *. now rewrite Hlong.
  - rewrite (IH (fun g rest => k (String x g) rest));
      [reflexivity | discriminate | exact Ha | exact Hlong | exact Hk].
Qed.

Lemma match_host_inv (s g1 g2 : string) :
  match_host s = Some (g1, g2) ->
  exists post,
    s = (g1 ++ "." ++ g2 ++ post)%string /\
    g1 <> EmptyString /\ g2 <> EmptyString /\
    all_chars host_char g1 /\ all_chars label_char g2.
Proof.
  unfold match_host. intros H.
  apply one_or_more_inv in H. destruct H as (h & rest & Hs & Hh & Hall & Hk).
  destruct rest as [|a rest]; [discriminate|].
  destruct (Ascii.eqb_spec a "."%char) as [->|_]; [|discriminate].
  apply one_or_more_inv in Hk. destruct Hk as (l & post & Hrest & Hl & Hlall & Hk).
  inversion Hk. subst h l.
  exists post. rewrite Hs, Hrest. repeat split; assumption.
Qed.

(** The schemes the pattern accepts in front of the host. *)
Lemma match_url_inv (s g1 g2 : string) :
  match_url s = Some (g1, g2) ->
  exists scheme post,
    In scheme ["https://www."; "https://"; "http://www."; "http://"; "sc-domain:"]%string /\
    s = (scheme ++ g1 ++ "." ++ g2 ++ post)%string /\
    g1 <> EmptyString /\ g2 <> EmptyString /\
    all_chars host_char g1 /\ all_chars label_char g2.
Proof.
  assert (Hhost : forall scheme r,
             In scheme ["https://www."; "https://"; "http://www."; "http://";
                        "sc-domain:"]%string ->
             s = (scheme ++ r)%string ->
             match_host r = Some (g1, g2) ->
             exists scheme post,
               In scheme ["https://www."; "https://"; "http://www."; "http://";
                          "sc-domain:"]%string /\
               s = (scheme ++ g1 ++ "." ++ g2 ++ post)%string /\
               g1 <> EmptyString /\ g2 <> EmptyString /\
               all_chars host_char g1 /\ all_chars label_char g2).
  { intros scheme r Hin Hs Hm. apply match_host_inv in Hm.
    destruct Hm as (post & Hr & Hrest). exists scheme, post.
    split; [exact Hin|]. split; [now rewrite Hs, Hr | exact Hrest]. }
  assert (Hwww : forall scheme r3,
             In scheme ["https://"; "http://"]%string ->
             s = (scheme ++ r3)%string ->
             optional "www." r3 match_host = Some (g1, g2) ->
             exists scheme r,
               In scheme ["https://www."; "https://"; "http://www."; "http://";
                          "sc-domain:"]%string /\
               s = (scheme ++ r)%string /\ match_host r = Some (g1, g2)).
  { intros scheme r3 Hin Hs. unfold optional.
    destruct (strip_prefix "www." r3) as [r4|] eqn:Hw.
    - apply strip_prefix_inv in Hw.
      destruct (match_host r4) as [p|] eqn:Hm4.
      + intros H. inversion H. subst p.
        exists (scheme ++ "www.")%string, r4. split; [|split; [|exact Hm4]].
        * simpl in Hin. destruct Hin as [<-|[<-|[]]]; simpl; tauto.
        * rewrite Hs, Hw. simpl in Hin.
          destruct Hin as [<-|[<-|[]]]; reflexivity.
      + intros H. exists scheme, r3. split; [|split; [exact Hs|exact H]].
        simpl in Hin. destruct Hin as [<-|[<-|[]]]; simpl; tauto.
    - intros H. exists scheme, r3. split; [|split; [exact Hs|exact H]].
      simpl in Hin. destruct Hin as [<-|[<-|[]]]; simpl; tauto. }
  assert (Hscheme : forall scheme r2,
             In scheme ["https"; "http"]%string ->
             s = (scheme ++ r2)%string ->
             match strip_prefix "://" r2 with
             | Some r3 => optional "www." r3 match_host
             | None => None
             end = Some (g1, g2) ->
             exists scheme r,
               In scheme ["https://www."; "https://"; "http://www."; "http://";
                          "sc-domain:"]%string /\
               s = (scheme ++ r)%string /\ match_host r = Some (g1, g2)).
  { intros scheme r2 Hin Hs.
    destruct (strip_prefix "://" r2) as [r3|] eqn:Hc; [|discriminate].
    apply strip_prefix_inv in Hc. intros H.
    apply (Hwww (scheme ++ "://")%string r3); [| |exact H].
    - simpl in Hin. destruct Hin as [<-|[<-|[]]]; simpl; tauto.
    - rewrite Hs, Hc. simpl in Hin. destruct Hin as [<-|[<-|[]]]; reflexivity. }
  unfold match_url. cbv zeta.
  destruct (strip_prefix "http" s) as [r1|] eqn:Hh.
  - apply strip_prefix_inv in Hh.
    destruct (optional "s" r1 _) as [p|] eqn:Hopt.
    + intros H. inversion H. subst p. unfold optional in Hopt.
      destruct (strip_prefix "s" r1) as [r2|] eqn:Hs1.
      * apply strip_prefix_inv in Hs1.
        match type of Hopt with
        | match ?e with _ => _ end = _ => destruct e as [p|] eqn:Hwith
        end.
        -- inversion Hopt. subst p.
           destruct (Hscheme "https"%string r2) as (sch & r & Hin & Hs & Hm);
             [simpl; tauto | now rewrite Hh, Hs1 | exact Hwith |].
           now apply (Hhost sch r).
        -- destruct (Hscheme "http"%string r1) as (sch & r & Hin & Hs & Hm);
             [simpl; tauto | exact Hh | exact Hopt |].
           now apply (Hhost sch r).
      * destruct (Hscheme "http"%string r1) as (sch & r & Hin & Hs & Hm);
          [simpl; tauto | exact Hh | exact Hopt |].
        now apply (Hhost sch r).
    + destruct (strip_prefix "sc-domain:" s) as [r|] eqn:Hsc; [|discriminate].
      apply strip_prefix_inv in Hsc. intros H.
      apply (Hhost "sc-domain:"%string r); [simpl; tauto | exact Hsc | exact H].
  - destruct (strip_prefix "sc-domain:" s) as [r|] eqn:Hsc; [|discriminate].
    apply strip_prefix_inv in Hsc. intros H.
    apply (Hhost "sc-domain:"%string r); [simpl; tauto | exact Hsc | exact H].
Qed.

Lemma string_app_assoc (a b c : string) :
  ((a ++ b) ++ c)%string = (a ++ (b ++ c))%string.
Proof. induction a as [|x a IH]; simpl; [reflexivity | now rewrite IH]. Qed.

Lemma search_url_inv (s g1 g2 : string) :
  search_url s = Some (g1, g2) ->
  exists pre scheme post,
    In scheme ["https://www."; "https://"; "http://www."; "http://"; "sc-domain:"]%string /\
    s = (pre ++ scheme ++ g1 ++ "." ++ g2 ++ post)%string /\
    g1 <> EmptyString /\ g2 <> EmptyString /\
    all_chars host_char g1 /\ all_chars label_char g2.
Proof.
  induction s as [|a s IH].
  - simpl. discriminate.
  - cbn [search_url]. destruct (match_url (String a s)) as [p|] eqn:Hm.
    + intros H. inversion H. subst p.
      destruct (match_url_inv _ _ _ Hm) as (scheme & post & Hrest).
      now exists EmptyString, scheme, post.
    + intros H. destruct (IH H) as (pre & scheme & post & Hin & Hs & Hrest).
      exists (String a pre), scheme, post. split; [exact Hin|].
      split; [simpl; now rewrite Hs | exact Hrest].
Qed.

Lemma all_chars_app (c : ascii -> bool) (x y : string) :
  all_chars c (x ++ y)%string <-> all_chars c x /\ all_chars c y.
Proof.
  unfold all_chars. induction x as [|a x IH]; simpl.
  - split; [intros H; split; [constructor|exact H] | now intros [_ H]].
  - split.
    + intros H. inversion H as [|? ? Ha Hx]; subst. apply IH in Hx.
      destruct Hx as [Hx Hy]. split; [now constructor | exact Hy].
    + intros [H Hy]. inversion H as [|? ? Ha Hx]; subst.
      constructor; [exact Ha|]. apply IH. now split.
Qed.

Lemma replace_dots_label (g : string) :
  all_chars host_char g -> all_chars label_char (replace_dots g).
Proof.
  unfold all_chars. induction g as [|a g IH]; simpl; intros H; [constructor|].
  inversion H as [|? ? Ha Hg]; subst. constructor; [|now apply IH].
  destruct (Ascii.eqb_spec a "."%char) as [->|Hne]; [reflexivity|].
  unfold host_char in Ha. unfold label_char.
  apply orb_true_iff in Ha. destruct Ha as [Ha|Ha]; [exact Ha|].
  apply Ascii.eqb_eq in Ha. contradiction.
Qed.

Lemma label_is_host (g : string) : all_chars label_char g -> all_chars host_char g.
Proof.
  unfold all_chars. apply Forall_impl. intros a Ha.
  unfold host_char. unfold label_char in Ha. now rewrite Ha.
Qed.

(** X11. Whatever the text, the name that [extract_full_domain] returns is
    made of word characters and hyphens only: it holds no dot, slash,
    backslash, colon, quote, blank or angle bracket. *)
Theorem domain_name_characters (input_string : string) :
  all_chars label_char (extract_full_domain input_string) /\
  forall a, In a (list_ascii_of_string (extract_full_domain input_string)) ->
            ~ In a ["."; "/"; "\"; ":"; "034"; "039"; " "; "<"; ">"]%char.
Proof.
  assert (Hall : all_chars label_char (extract_full_domain input_string)).
  { unfold extract_full_domain.
    destruct (search_url input_string) as [[g1 g2]|] eqn:Hs; [|constructor].
    apply search_url_inv in Hs.
    destruct Hs as (pre & scheme & post & _ & _ & _ & _ & H1 & H2).
    apply replace_dots_label. apply all_chars_app.
    split; [exact H1 | now apply label_is_host]. }
  split; [exact Hall|].
  intros a Ha Hbad.
  pose proof (proj1 (Forall_forall _ _) Hall a Ha) as Hl. cbv beta in Hl.
  simpl in Hbad.
  repeat (destruct Hbad as [<-|Hbad]; [vm_compute in Hl; discriminate|]).
  exact Hbad.
Qed.

(** X12. The name is empty unless the text holds one of the schemes
    [https://], [http://] (each with or without [www.]) or [sc-domain:]
    followed by a host with a dot in it; the name is then the host up to its
    last label, without that dot, and with its other dots as underscores. *)
Theorem domain_name_origin (input_string : string) :
  extract_full_domain input_string <> EmptyString ->
  exists pre scheme g1 g2 post,
    In scheme ["https://www."; "https://"; "http://www."; "http://"; "sc-domain:"]%string /\
    input_string = (pre ++ scheme ++ g1 ++ "." ++ g2 ++ post)%string /\
    g1 <> EmptyString /\ g2 <> EmptyString /\
    all_chars host_char g1 /\ all_chars label_char g2 /\
    extract_full_domain input_string = replace_dots (g1 ++ g2)%string.
Proof.
  unfold extract_full_domain.
  destruct (search_url input_string) as [[g1 g2]|] eqn:Hs; [|congruence].
  intros _. apply search_url_inv in Hs.
  destruct Hs as (pre & scheme & post & Hin & Hs & Hg1 & Hg2 & H1 & H2).
  exists pre, scheme, g1, g2, post. repeat split; assumption.
Qed.

Lemma domain_name_origin_witness :
  exists pre scheme g1 g2 post,
    In scheme ["https://www."; "https://"; "http://www."; "http://"; "sc-domain:"]%string /\
    "see https://shop.example.com/a.html"%string =
    (pre ++ scheme ++ g1 ++ "." ++ g2 ++ post)%string /\
    g1 <> EmptyString /\ g2 <> EmptyString /\
    all_chars host_char g1 /\ all_chars label_char g2 /\
    extract_full_domain "see https://shop.example.com/a.html" =
    replace_dots (g1 ++ g2)%string.
Proof.
  apply (domain_name_origin "see https://shop.example.com/a.html").
  vm_compute. discriminate.
Defined.

(** The dot of the pattern is the last dot of the host. *)
Lemma match_host_exact (a b rest : string) :
  a <> EmptyString -> b <> EmptyString ->
  all_chars host_char a -> all_chars label_char b -> host_ends rest ->
  match_host (a ++ "." ++ b ++ rest)%string = Some (a, b).
Proof.
  intros Ha Hb Hall Hlab Hend. unfold match_host.
  assert (Hrest : forall (R : Type) (k : string -> string -> option R),
             one_or_more label_char rest k = None).
  { intros R k. destruct rest as [|x rest]; [reflexivity|]. simpl.
    simpl in Hend. unfold host_char in Hend. unfold label_char.
    apply orb_false_elim in Hend. destruct Hend as [Hend _]. now rewrite Hend. }
  apply one_or_more_longest; [exact Ha | exact Hall | |].
  - apply one_or_more_none. intros g r Hg Hs Hgall.
    destruct g as [|x g]; [congruence|]. simpl in Hs. inversion Hs as [[Hx Hbr]].
    unfold all_chars in Hgall. simpl in Hgall.
    pose proof (Forall_inv_tail Hgall) as Hgall'. subst x. clear Hs Hg Hgall.
    assert (Hr : match r with
                 | String y _ => Ascii.eqb y "."%char = false
                 | EmptyString => True
                 end).
    { clear Hb Hrest. revert g Hbr Hgall'.
      unfold all_chars in Hlab.
      induction b as [|y b IH]; intros g Hbr Hgall'; simpl in Hbr.
      - destruct g as [|z g]; simpl in Hbr.
        + subst r. destruct rest as [|z rest]; [exact I|]. simpl in Hend.
          unfold host_char in Hend. apply orb_false_elim in Hend. apply Hend.
        + exfalso. subst rest. simpl in Hend, Hgall'.
          pose proof (Forall_inv Hgall') as Hz. cbv beta in Hz. congruence.
      - simpl in Hlab. inversion Hlab as [|? ? Hy Hb']; subst.
        destruct g as [|z g]; simpl in Hbr.
        + subst r. unfold label_char in Hy.
          destruct (Ascii.eqb_spec y "."%char) as [->|]; [discriminate|reflexivity].
        + inversion Hbr. simpl in Hgall'.
          apply (IH Hb' g); [assumption | exact (Forall_inv_tail Hgall')]. }
    destruct r as [|y r]; [reflexivity|]. now rewrite Hr.
  - simpl. apply one_or_more_longest; [exact Hb | exact Hlab | apply Hrest | reflexivity].
Qed.

(** X13. For the address of a property, a scheme followed by a host whose
    last label is [b] and whose part before the last dot is [a], the name is
    [a] followed by [b] with the dots of [a] as underscores: a leading
    [www.] after [http://] or [https://] is dropped, and the dot before the
    last label disappears. *)
Theorem domain_name_of_property (scheme a b rest : string) :
  a <> EmptyString -> b <> EmptyString ->
  all_chars host_char a -> all_chars label_char b -> host_ends rest ->
  In scheme ["sc-domain:"; "https://www."; "http://www."]%string \/
  (In scheme ["https://"; "http://"]%string /\
   strip_prefix "www." (a ++ "." ++ b ++ rest)%string = None) ->
  extract_full_domain (scheme ++ a ++ "." ++ b ++ rest)%string =
  replace_dots (a ++ b)%string.
Proof.
  intros Ha Hb Hall Hlab Hend Hscheme.
  pose proof (match_host_exact a b rest Ha Hb Hall Hlab Hend) as Hm.
  cbn [append] in Hm, Hscheme.
  unfold extract_full_domain.
  assert (Hs : search_url (scheme ++ a ++ "." ++ b ++ rest)%string = Some (a, b)).
  { cbn [append].
    remember (a ++ String "."%char (b ++ rest))%string as host eqn:Hhost.
    clear Hhost.
    destruct Hscheme as [Hin|[Hin Hwww]]; simpl in Hin.
    - destruct Hin as [<-|[<-|[<-|[]]]];
        cbn [append search_url]; unfold match_url, optional; cbn;
        now rewrite Hm.
    - cbn in Hwww.
      destruct Hin as [<-|[<-|[]]];
        cbn [append search_url]; unfold match_url, optional; cbn;
        now rewrite Hwww, Hm. }
  now rewrite Hs.
Qed.

Lemma domain_name_of_property_witness :
  extract_full_domain ("https://www." ++ "shop.example" ++ "." ++ "com" ++ "/")%string =
  replace_dots ("shop.example" ++ "com")%string.
Proof.
  apply (domain_name_of_property "https://www." "shop.example" "com" "/").
  - discriminate.
  - discriminate.
  - unfold all_chars. repeat constructor.
  - unfold all_chars. repeat constructor.
  - reflexivity.
  - left. simpl. auto.
Defined.


(** * Session state *)

Lemma state_get_set_same (k : string) (v : sval) (s : session) :
  state_get k (state_set k v s) = Some v.
Proof.
  induction s as [|[k' v'] s IH]; simpl.
  - now rewrite String.eqb_refl.
  - destruct (String.eqb k' k) eqn:He; simpl.
    + now rewrite String.eqb_refl.
    + now rewrite He.
Qed.

Lemma state_get_set_other (k k' : string) (v : sval) (s : session) :
  k' <> k -> state_get k' (state_set k v s) = state_get k' s.
Proof.
  intros Hne. induction s as [|[k0 v0] s IH]; simpl.
  - destruct (String.eqb_spec k k'); [congruence|reflexivity].
  - destruct (String.eqb_spec k0 k) as [->|Hk0]; simpl.
    + destruct (String.eqb_spec k k'); [congruence|reflexivity].
    + now rewrite IH.
Qed.

(** A step never changes a key that is there, and leaves its own key set. *)
Lemma set_default_keeps (k : string) (v : option sval) (s s' : session)
      (k' : string) (w : sval) :
  set_default k v s = Some s' -> state_get k' s = Some w -> state_get k' s' = Some w.
Proof.
  unfold set_default, state_mem. intros H Hw.
  destruct (state_get k s) as [u|] eqn:Hk.
  - inversion H. now subst.
  - destruct v as [v'|]; [|discriminate]. inversion H. subst s'.
    rewrite state_get_set_other; [exact Hw|]. intros ->. congruence.
Qed.

Lemma set_default_sets (k : string) (v : option sval) (s s' : session) :
  set_default k v s = Some s' ->
  exists w, state_get k s' = Some w /\
            (state_get k s = None -> v = Some w).
Proof.
  unfold set_default, state_mem. intros H.
  destruct (state_get k s) as [u|] eqn:Hk.
  - inversion H. subst s'. exists u. split; [exact Hk|discriminate].
  - destruct v as [v'|]; [|discriminate]. inversion H. subst s'.
    exists v'. split; [apply state_get_set_same | reflexivity].
Qed.

Lemma set_default_present (k : string) (v : option sval) (s : session) (w : sval) :
  state_get k s = Some w -> set_default k v s = Some s.
Proof. intros H. unfold set_default, state_mem. now rewrite H. Qed.

Lemma set_default_absent (k : string) (v : option sval) (s s' : session) (k' : string) :
  set_default k v s = Some s' -> k' <> k -> state_get k' s' = state_get k' s.
Proof.
  unfold set_default, state_mem. intros H Hne.
  destruct (state_get k s) as [u|] eqn:Hk.
  - inversion H. now subst.
  - destruct v as [v'|]; [|discriminate]. inversion H. subst s'.
    now apply state_get_set_other.
Qed.

Lemma and_then_inv {A B : Type} (x : option A) (f : A -> option B) (b : B) :
  and_then x f = Some b -> exists a, x = Some a /\ f a = Some b.
Proof. destruct x as [a|]; simpl; [|discriminate]. intros H. now exists a. Qed.

(** The ten steps of the routine, one after the other. *)
Ltac session_steps H :=
  repeat match type of H with
         | and_then _ _ = Some _ =>
             let s := fresh "s" in
             let Hs := fresh "Hstep" in
             apply and_then_inv in H; destruct H as (s & Hs & H)
         end.

Lemma init_session_state_keeps (today : Z) (s s' : session) (k : string) (w : sval) :
  init_session_state today s = Some s' ->
  state_get k s = Some w -> state_get k s' = Some w.
Proof.
  unfold init_session_state. intros H Hw. session_steps H.
  repeat match goal with
         | Hs : set_default _ _ ?a = Some ?b, Hg : state_get k ?a = Some w |- _ =>
             pose proof (set_default_keeps _ _ _ _ k w Hs Hg); clear Hs
         end.
  assumption.
Qed.

Lemma set_default_own (k : string) (v : option sval) (s s' : session) :
  set_default k v s = Some s' -> exists w, state_get k s' = Some w.
Proof.
  intros H. destruct (set_default_sets _ _ _ _ H) as (w & Hw & _). now exists w.
Qed.

Lemma set_default_mono (k : string) (v : option sval) (s s' : session) (k' : string) :
  set_default k v s = Some s' ->
  (exists w, state_get k' s = Some w) -> exists w, state_get k' s' = Some w.
Proof.
  intros H [w Hw]. exists w. now apply (set_default_keeps k v s s').
Qed.

Lemma init_session_state_present (today : Z) (s s' : session) (k : string) :
  init_session_state today s = Some s' ->
  In k session_keys -> exists w, state_get k s' = Some w.
Proof.
  unfold init_session_state. intros H Hin. session_steps H.
  simpl in Hin.
  repeat (destruct Hin as [<-|Hin];
          [eauto 15 using set_default_own, set_default_mono|]).
  contradiction.
Qed.

Lemma init_session_state_others (today : Z) (s s' : session) (k : string) :
  init_session_state today s = Some s' ->
  ~ In k session_keys -> state_get k s' = state_get k s.
Proof.
  unfold init_session_state. intros H Hnot. session_steps H.
  simpl in Hnot.
  repeat match goal with
         | Hs : set_default ?k0 _ ?a = Some ?b |- _ =>
             let He := fresh "He" in
             assert (He : state_get k b = state_get k a)
               by (apply (set_default_absent k0 _ a b k Hs); intros ->; tauto);
             clear Hs
         end.
  congruence.
Qed.

(** X14. [init_session_state] never changes what the session already
    holds: a key that has a value keeps it, also when the key is one of the
    routine's own, and a key the routine does not look after is as before. *)
Theorem init_keeps_existing_values
        (today : Z) (s s' : session) :
  init_session_state today s = Some s' ->
  (forall k w, state_get k s = Some w -> state_get k s' = Some w) /\
  (forall k, ~ In k session_keys -> state_get k s' = state_get k s).
Proof.
  intros H. split.
  - intros k w. now apply (init_session_state_keeps today).
  - intros k. now apply (init_session_state_others today).
Qed.

Lemma init_keeps_existing_values_witness :
  (forall k w,
      state_get k [("zero_clicks", SStr "Si"); ("user", SStr "ana")]%string = Some w ->
      state_get k
        [("zero_clicks", SStr "Si"); ("user", SStr "ana");
         ("selected_property", SNone); ("selected_date_range", SStr last_7_days);
         ("start_date", SDate 738993); ("end_date", SDate 739000);
         ("selected_device", SStr "Todos"); ("custom_start_date", SDate 738993);
         ("custom_end_date", SDate 739000); ("brand_term", SNone);
         ("metrics", SStr "clicks")]%string = Some w) /\
  (forall k, ~ In k session_keys ->
             state_get k
               [("zero_clicks", SStr "Si"); ("user", SStr "ana");
                ("selected_property", SNone); ("selected_date_range", SStr last_7_days);
                ("start_date", SDate 738993); ("end_date", SDate 739000);
                ("selected_device", SStr "Todos"); ("custom_start_date", SDate 738993);
                ("custom_end_date", SDate 739000); ("brand_term", SNone);
                ("metrics", SStr "clicks")]%string =
             state_get k [("zero_clicks", SStr "Si"); ("user", SStr "ana")]%string).
Proof.
  apply (init_keeps_existing_values 739000
           [("zero_clicks", SStr "Si"); ("user", SStr "ana")]%string).
  reflexivity.
Defined.

Lemma and_then_set_default {B : Type} (k : string) (v : sval) (s : session)
      (f : session -> option B) :
  and_then (set_default k (Some v) s) f =
  f (if state_mem k s then s else state_set k v s).
Proof. unfold set_default. now destruct (state_mem k s). Qed.

(** X15. On any day from the eighth of the calendar on,
    [init_session_state] does not raise, and afterwards each of its ten
    keys has a value. *)
Theorem init_sets_every_key (today : Z) (s : session) :
  8 <= today <= date_max ->
  exists s',
    init_session_state today s = Some s' /\
    forall k, In k session_keys -> exists w, state_get k s' = Some w.
Proof.
  intros Htoday.
  assert (Hex : exists s', init_session_state today s = Some s').
  { unfold init_session_state.
    rewrite date_minus_days_some by lia. simpl option_map.
    rewrite !and_then_set_default. unfold set_default.
    match goal with
    | |- exists s', (if ?c then Some ?a else Some ?b) = Some s' =>
        destruct c; eexists; reflexivity
    end. }
  destruct Hex as [s' Hs']. exists s'. split; [exact Hs'|].
  intros k. now apply (init_session_state_present today s).
Qed.

Lemma init_sets_every_key_witness :
  exists s',
    init_session_state 739000 [("metrics", SStr "impressions")]%string = Some s' /\
    forall k, In k session_keys -> exists w, state_get k s' = Some w.
Proof.
  apply (init_sets_every_key 739000 [("metrics", SStr "impressions")]%string).
  unfold date_max. lia.
Defined.

(** X16. Running [init_session_state] again changes nothing, on whatever
    day: the session it produced is returned as it is. *)
Theorem init_is_idempotent (today today' : Z) (s s' : session) :
  init_session_state today s = Some s' ->
  init_session_state today' s' = Some s'.
Proof.
  intros H.
  assert (Hp : forall k, In k session_keys -> exists w, state_get k s' = Some w).
  { intros k. now apply (init_session_state_present today s). }
  assert (Hstep : forall k v, In k session_keys -> set_default k v s' = Some s').
  { intros k v Hk. destruct (Hp k Hk) as [w Hw]. now apply (set_default_present k v s' w). }
  unfold init_session_state.
  repeat (rewrite Hstep by (simpl; tauto); cbn [and_then]).
  reflexivity.
Qed.

Lemma init_is_idempotent_witness :
  init_session_state 739500
    [("metrics", SStr "impressions"); ("selected_property", SNone);
     ("selected_date_range", SStr last_7_days);
     ("start_date", SDate 738993); ("end_date", SDate 739000);
     ("selected_device", SStr "Todos"); ("custom_start_date", SDate 738993);
     ("custom_end_date", SDate 739000); ("brand_term", SNone);
     ("zero_clicks", SStr "No")]%string =
  Some [("metrics", SStr "impressions"); ("selected_property", SNone);
        ("selected_date_range", SStr last_7_days);
        ("start_date", SDate 738993); ("end_date", SDate 739000);
        ("selected_device", SStr "Todos"); ("custom_start_date", SDate 738993);
        ("custom_end_date", SDate 739000); ("brand_term", SNone);
        ("zero_clicks", SStr "No")]%string.
Proof.
  apply (init_is_idempotent 739000 739500 [("metrics", SStr "impressions")]%string).
  reflexivity.
Defined.
